(** * FlagShip: the feature-flag store and its service API

    A shallow embedding of the flag data model ([app/models.py]), the request
    schemas ([app/schemas.py]), the store operations ([app/crud.py]), the
    API-key check ([app/auth.py]) and the endpoints ([app/main.py]), followed
    by the properties of the CRUD contract.

    Modelling conventions.
    - Python [str] is [string]: a sequence of characters with codes below
      256; [len] is [String.length] and [==] is [String.eqb].  [str.lower] is
      modelled on the letters [A]-[Z]; its one use is a membership test
      against words of [a]-[z], which no other character can pass.
    - Python [int] is [Z]; SQL [OFFSET]/[LIMIT] arguments are [nat].
    - The table [feature_flags] is the list of its rows in the order in which
      the engine scans them; the properties hold for every such order.
    - [uuid.uuid4()] and [func.now()] are inputs of the operations that call
      them.
    - The storage engine is reliable: a commit fails only with
      [IntegrityError], when a constraint declared in [app/models.py] is
      violated, and a query fails only when the list endpoint hands it an
      offset beyond the engine's 64-bit integers.  Loss of connectivity (the
      generic [except Exception] handlers) is outside the model.
    - A request body is either JSON with typed fields or bytes that do not
      decode as JSON. *)

From Stdlib Require Import List String Ascii ZArith Bool Arith Lia.
From Equations Require Import Equations.
Import ListNotations.

Local Open Scope string_scope.
Local Open Scope Z_scope.
Local Open Scope list_scope.

(** ** Python strings *)

Module Py.

(** [c.lower()] for one character: [A]-[Z] move to [a]-[z]. *)
Definition lower_char (c : ascii) : ascii :=
  let n := nat_of_ascii c in
  if ((65 <=? n) && (n <=? 90))%nat then ascii_of_nat (n + 32) else c.

(** [s.lower()]. *)
Fixpoint lower (s : string) : string :=
  match s with
  | EmptyString => EmptyString
  | String c s' => String (lower_char c) (lower s')
  end.

(** [x in xs] for a list of strings. *)
Definition str_in (x : string) (xs : list string) : bool :=
  existsb (String.eqb x) xs.

(** [c.isspace()] on the 8-bit range. *)
Definition isspace (c : ascii) : bool :=
  let n := nat_of_ascii c in
  (((9 <=? n) && (n <=? 13)) || ((28 <=? n) && (n <=? 32))
   || (n =? 133) || (n =? 160))%nat.

(** [s.lstrip()]. *)
Fixpoint lstrip (s : string) : string :=
  match s with
  | EmptyString => EmptyString
  | String c s' => if isspace c then lstrip s' else s
  end.

(** [s.rstrip()]. *)
Fixpoint rstrip (s : string) : string :=
  match s with
  | EmptyString => EmptyString
  | String c s' =>
      match rstrip s' with
      | EmptyString => if isspace c then EmptyString else String c EmptyString
      | t => String c t
      end
  end.

(** [s.strip()]. *)
Definition strip (s : string) : string := rstrip (lstrip s).

(** [s.split(sep)] for a one-character separator: the fields between the
    separators, empty fields included. *)
Fixpoint split (sep : ascii) (s : string) : list string :=
  match s with
  | EmptyString => [EmptyString]
  | String c s' =>
      if Ascii.eqb c sep then EmptyString :: split sep s'
      else
        match split sep s' with
        | [] => [String c EmptyString]
        | w :: ws => String c w :: ws
        end
  end.

(** Truth value of a string: [bool(s)]. *)
Definition truthy (s : string) : bool := negb (String.eqb s "").

(** Truth value of an [Optional[str]]. *)
Definition truthy_opt (o : option string) : bool :=
  match o with
  | Some s => truthy s
  | None => false
  end.

End Py.

(** ** app/exceptions.py *)

Inductive FlagShipException : Type :=
| FlagNotFoundError (name environment : string)        (* 404 *)
| FlagAlreadyExistsError (name environment : string)   (* 400 *)
| InvalidInputError (detail : string)                  (* 400 *)
| DatabaseError (detail : string).                     (* 500 *)


(** The result of a call that may raise. *)
Inductive Result (E A : Type) : Type :=
| Ok (a : A)
| Raise (e : E).
Arguments Ok {E A} a.
Arguments Raise {E A} e.

(** ** app/models.py *)

Definition UUID := N.
Definition datetime := Z.

Record FeatureFlag : Type := mkFeatureFlag {
  id : UUID;
  name : string;
  environment : string;
  enabled : bool;
  rollout : Z;
  updated_at : datetime
}.

(** The rows of [feature_flags] as the session sees them. *)
Definition Session := list FeatureFlag.

(** The filter [FeatureFlag.name == n, FeatureFlag.environment == e]. *)
Definition has_pair (n e : string) (f : FeatureFlag) : bool :=
  String.eqb (name f) n && String.eqb (environment f) e.

(** The filter [FeatureFlag.environment == e]. *)
Definition in_environment (e : string) (f : FeatureFlag) : bool :=
  String.eqb (environment f) e.

(** The filter [FeatureFlag.id == i] (the primary key). *)
Definition has_id (i : UUID) (f : FeatureFlag) : bool := N.eqb (id f) i.

(** [INSERT] under the table's constraints: the primary key [id] and
    [uq_flag_name_environment].  [None] is [IntegrityError]. *)
Definition insert_row (db : Session) (f : FeatureFlag) : option Session :=
  if existsb (has_id (id f)) db then None
  else if existsb (has_pair (name f) (environment f)) db then None
  else Some (db ++ [f]).

(** [UPDATE ... WHERE id = i]: the row with key [i] becomes [f]. *)
Definition update_row (db : Session) (i : UUID) (f : FeatureFlag) : Session :=
  map (fun g => if has_id i g then f else g) db.

(** [DELETE ... WHERE id = i]. *)
Definition delete_row (db : Session) (i : UUID) : Session :=
  filter (fun g => negb (has_id i g)) db.

(** The key of [uq_flag_name_environment]. *)
Definition pair (f : FeatureFlag) : string * string := (name f, environment f).

(** The constraints that the engine maintains on the table: the primary key
    and [UniqueConstraint('name', 'environment')]. *)
Definition constraints_hold (db : Session) : Prop :=
  NoDup (map id db) /\ NoDup (map pair db).

(** ** app/schemas.py *)

Module Schemas.

(** One entry of a pydantic validation error: the field and the reason. *)
Record FieldError : Type := mkFieldError { loc : string; msg : string }.

Definition Validated (A : Type) := Result (list FieldError) A.

(** The JSON body of a create request, before validation. *)
Record CreateBody : Type := mkCreateBody {
  body_name : option string;
  body_environment : option string;
  body_enabled : option bool;
  body_rollout : option Z
}.

(** A validated [FeatureFlagCreate]. *)
Record FeatureFlagCreate : Type := mkFeatureFlagCreate {
  c_name : string;
  c_environment : string;
  c_enabled : bool;
  c_rollout : Z
}.

(** A [FeatureFlagUpdate]: both fields are optional. *)
Record FeatureFlagUpdate : Type := mkFeatureFlagUpdate {
  u_enabled : option bool;
  u_rollout : option Z
}.

(** [Field(..., min_length=lo, max_length=hi)] on a required string. *)
Definition required_str (field : string) (lo hi : nat) (o : option string)
  : Validated string :=
  match o with
  | None => Raise [mkFieldError field "Field required"]
  | Some s =>
      if (String.length s <? lo)%nat
      then Raise [mkFieldError field "String too short"]
      else if (hi <? String.length s)%nat
      then Raise [mkFieldError field "String too long"]
      else Ok s
  end.

(** [Field(ge=lo, le=hi)] on an integer. *)
Definition bounded_int (field : string) (lo hi : Z) (v : Z) : Validated Z :=
  if v <? lo then Raise [mkFieldError field "Input too small"]
  else if hi <? v then Raise [mkFieldError field "Input too large"]
  else Ok v.

Definition allowed : list string :=
  ["dev"; "staging"; "prod"; "development"; "production"].

(** [FeatureFlagBase.validate_environment]. *)
Definition validate_environment (v : string) : Validated string :=
  if negb (Py.str_in (Py.lower v) allowed)
  then Raise [mkFieldError "environment" "Environment must be one of the allowed values"]
  else Ok (Py.lower v).

(** The field [name] of [FeatureFlagBase]. *)
Definition field_name (o : option string) : Validated string :=
  required_str "name" 1 100 o.

(** The field [environment] of [FeatureFlagBase]: the length bounds, then
    the validator. *)
Definition field_environment (o : option string) : Validated string :=
  match required_str "environment" 1 50 o with
  | Ok s => validate_environment s
  | Raise e => Raise e
  end.

(** The field [enabled] of [FeatureFlagBase]: [default=False]. *)
Definition field_enabled (o : option bool) : Validated bool :=
  match o with
  | None => Ok false
  | Some b => Ok b
  end.

(** The field [rollout] of [FeatureFlagBase]: [default=100, ge=0, le=100]. *)
Definition field_rollout (o : option Z) : Validated Z :=
  match o with
  | None => Ok 100
  | Some v => bounded_int "rollout" 0 100 v
  end.

Definition errors {A : Type} (r : Validated A) : list FieldError :=
  match r with
  | Ok _ => []
  | Raise e => e
  end.

(** [FeatureFlagCreate] from a body: every field is validated and the errors of
    all fields are reported together. *)
Definition parse_FeatureFlagCreate (b : CreateBody) : Validated FeatureFlagCreate :=
  match field_name (body_name b), field_environment (body_environment b),
        field_enabled (body_enabled b), field_rollout (body_rollout b) with
  | Ok n, Ok e, Ok en, Ok r => Ok (mkFeatureFlagCreate n e en r)
  | rn, re, ren, rr => Raise (errors rn ++ errors re ++ errors ren ++ errors rr)
  end.

(** [FeatureFlagUpdate.validate_rollout]. *)
Definition validate_rollout (v : option Z) : Validated (option Z) :=
  match v with
  | Some x =>
      if (x <? 0) || (100 <? x)
      then Raise [mkFieldError "rollout" "Rollout must be between 0 and 100"]
      else Ok v
  | None => Ok v
  end.

(** The field [rollout] of [FeatureFlagUpdate]: [Field(None, ge=0, le=100)],
    then the validator. *)
Definition field_rollout_update (o : option Z) : Validated (option Z) :=
  match o with
  | None => Ok None
  | Some v =>
      match bounded_int "rollout" 0 100 v with
      | Ok v' => validate_rollout (Some v')
      | Raise e => Raise e
      end
  end.

(** [FeatureFlagUpdate] from a body. *)
Definition parse_FeatureFlagUpdate (b : FeatureFlagUpdate) : Validated FeatureFlagUpdate :=
  match field_rollout_update (u_rollout b) with
  | Ok r => Ok (mkFeatureFlagUpdate (u_enabled b) r)
  | Raise e => Raise e
  end.

End Schemas.

(** ** app/crud.py *)

Module Crud.
Import Schemas.

(** [get_flag]: the first row with the pair, if any. *)
Definition get_flag (db : Session) (n e : string) : option FeatureFlag :=
  find (has_pair n e) db.

(** [get_flag_by_id]. *)
Definition get_flag_by_id (db : Session) (i : UUID) : option FeatureFlag :=
  find (has_id i) db.

(** The query shared by [list_flags] and [count_flags]: the filter is added
    only when [environment] is truthy. *)
Definition query (db : Session) (env : option string) : list FeatureFlag :=
  match env with
  | Some e => if Py.truthy e then filter (in_environment e) db else db
  | None => db
  end.

(** [list_flags]: [query.offset(skip).limit(limit).all()]. *)
Definition list_flags (db : Session) (env : option string) (skip limit : nat)
  : list FeatureFlag :=
  firstn limit (skipn skip (query db env)).

(** [count_flags]: [query.count()]. *)
Definition count_flags (db : Session) (env : option string) : nat :=
  List.length (query db env).

(** [create_flag].  [new_id] is the value of [uuid.uuid4()] and [now] the
    value of [func.now()] for the inserted row. *)
Definition create_flag (db : Session) (flag_data : FeatureFlagCreate)
    (new_id : UUID) (now : datetime)
  : Result FlagShipException FeatureFlag * Session :=
  match get_flag db (c_name flag_data) (c_environment flag_data) with
  | Some _ =>
      (Raise (FlagAlreadyExistsError (c_name flag_data) (c_environment flag_data)), db)
  | None =>
      let flag := {| id := new_id;
                     name := c_name flag_data;
                     environment := c_environment flag_data;
                     enabled := c_enabled flag_data;
                     rollout := c_rollout flag_data;
                     updated_at := now |} in
      match insert_row db flag with
      | Some db' => (Ok flag, db')
      | None =>
          (* IntegrityError: rollback *)
          (Raise (FlagAlreadyExistsError (c_name flag_data) (c_environment flag_data)), db)
      end
  end.

(** The first step of [update_flag] on a found flag: [enabled] is assigned
    when supplied and different.  Returns the flag and whether it changed. *)
Definition apply_enabled (flag_data : FeatureFlagUpdate) (flag : FeatureFlag)
  : FeatureFlag * bool :=
  match u_enabled flag_data with
  | Some b =>
      if negb (Bool.eqb b (enabled flag))
      then ({| id := id flag; name := name flag; environment := environment flag;
               enabled := b; rollout := rollout flag;
               updated_at := updated_at flag |}, true)
      else (flag, false)
  | None => (flag, false)
  end.

(** The second step: [rollout] is assigned when supplied and different. *)
Definition apply_rollout (flag_data : FeatureFlagUpdate) (flag : FeatureFlag)
  : FeatureFlag * bool :=
  match u_rollout flag_data with
  | Some r =>
      if negb (r =? rollout flag)
      then ({| id := id flag; name := name flag; environment := environment flag;
               enabled := enabled flag; rollout := r;
               updated_at := updated_at flag |}, true)
      else (flag, false)
  | None => (flag, false)
  end.

(** The commit of a changed flag: [onupdate=func.now()] sets [updated_at]. *)
Definition touch (now : datetime) (flag : FeatureFlag) : FeatureFlag :=
  {| id := id flag; name := name flag; environment := environment flag;
     enabled := enabled flag; rollout := rollout flag; updated_at := now |}.

(** [update_flag].  [now] is the value of [func.now()] at the commit. *)
Definition update_flag (db : Session) (n e : string)
    (flag_data : FeatureFlagUpdate) (now : datetime)
  : option FeatureFlag * Session :=
  match get_flag db n e with
  | None => (None, db)
  | Some flag =>
      let '(flag1, changed1) := apply_enabled flag_data flag in
      let '(flag2, changed2) := apply_rollout flag_data flag1 in
      if negb (changed1 || changed2) then (Some flag, db)
      else
        let flag' := touch now flag2 in
        (Some flag', update_row db (id flag) flag')
  end.

(** [delete_flag]. *)
Definition delete_flag (db : Session) (n e : string) : bool * Session :=
  match get_flag db n e with
  | None => (false, db)
  | Some flag => (true, delete_row db (id flag))
  end.

End Crud.

(** ** app/config.py and app/auth.py *)

Module Auth.

(** The part of [Settings] that the API-key check reads. *)
Record Settings : Type := mkSettings { API_KEYS : string }.

(** The settings when the environment overrides nothing. *)
Definition default_settings : Settings :=
  {| API_KEYS := "dev-api-key-12345" |}.

(** [get_api_keys]: the comma-separated setting, stripped, without empty
    entries; the development key when the setting is empty. *)
Definition get_api_keys (settings : Settings) : list string :=
  let api_keys_str := API_KEYS settings in
  if Py.truthy api_keys_str
  then map Py.strip
         (filter (fun key => Py.truthy (Py.strip key)) (Py.split "," api_keys_str))
  else ["dev-api-key-12345"].

(** The two [HTTPException]s with status 401 that [verify_api_key] raises. *)
Inductive Unauthenticated : Type :=
| ApiKeyRequired     (* "API key required. Please provide X-API-Key header." *)
| InvalidApiKey.     (* "Invalid API key" *)

(** [API_KEY_HEADER = APIKeyHeader(name="X-API-Key", auto_error=False)]:
    the credential that a request carries.  [header] is the value of
    [X-API-Key], [None] when the header is absent; without [auto_error] the
    scheme yields [None] for an absent or empty header and raises
    nothing. *)
Definition API_KEY_HEADER (header : option string) : option string :=
  match header with
  | Some k => if Py.truthy k then Some k else None
  | None => None
  end.

(** [verify_api_key].  [api_key] is what [API_KEY_HEADER] yields; the test
    [not api_key] holds for [None] and for the empty string. *)
Definition verify_api_key (settings : Settings) (api_key : option string)
  : Result Unauthenticated string :=
  let valid_keys := get_api_keys settings in
  match api_key with
  | None => Raise ApiKeyRequired
  | Some k =>
      if negb (Py.truthy k) then Raise ApiKeyRequired
      else if negb (Py.str_in k valid_keys) then Raise InvalidApiKey
      else Ok k
  end.

End Auth.

(** ** app/main.py *)

Module Main.
Import Schemas.

(** What a caller receives. *)
Inductive Response : Type :=
| Health (status database : string)                 (* 200 *)
| Created (flag : FeatureFlag)                      (* 201 *)
| Flag (flag : FeatureFlag)                         (* 200 *)
| FlagList (flags : list FeatureFlag) (total : nat) (* 200 *)
| NoContent                                         (* 204 *)
| Unauthorized (why : Auth.Unauthenticated)         (* 401 *)
| Unprocessable (errs : list FieldError)            (* 422 *)
| Failed (e : FlagShipException)                    (* the exception's status *)
| InternalError.                                    (* 500, [general_exception_handler] *)

(** The functions of [app/crud.py] that an endpoint may call. *)
Inductive StoreCall : Type :=
| call_get_flag | call_list_flags | call_count_flags
| call_create_flag | call_update_flag | call_delete_flag.

(** The outcome of one request: the response, the session afterwards, and
    the store functions that were called, in order. *)
Record Reply : Type := mkReply {
  response : Response;
  session : Session;
  calls : list StoreCall
}.

(** What a request reads besides its own parameters. *)
Record World : Type := mkWorld {
  settings : Auth.Settings;
  uuid4 : UUID;            (* the next [uuid.uuid4()] *)
  now : datetime;          (* the current [func.now()] *)
  connected : bool         (* does [SELECT 1] succeed *)
}.

(** [Query(default, ge=lo)] and [Query(default, ge=lo, le=hi)] on an
    integer parameter. *)
Definition query_int (field : string) (default lo : Z) (hi : option Z)
    (o : option Z) : Validated Z :=
  match o with
  | None => Ok default
  | Some v =>
      if v <? lo then Raise [mkFieldError field "Input too small"]
      else match hi with
           | Some h => if h <? v
                       then Raise [mkFieldError field "Input too large"]
                       else Ok v
           | None => Ok v
           end
  end.

(** [Query(...)] on a required string parameter, without constraints. *)
Definition query_str (field : string) (o : option string) : Validated string :=
  match o with
  | None => Raise [mkFieldError field "Field required"]
  | Some s => Ok s
  end.

(** [health_check]: no dependency on [verify_api_key]. *)
Definition health_check (w : World) (db : Session) : Reply :=
  let db_status := if connected w then "connected" else "disconnected" in
  let status := if String.eqb db_status "connected" then "healthy" else "degraded" in
  mkReply (Health status db_status) db [].

(** [create_feature_flag]. *)
Definition create_feature_flag (w : World) (header : option string)
    (body : CreateBody) (db : Session) : Reply :=
  match Auth.verify_api_key (settings w) (Auth.API_KEY_HEADER header) with
  | Raise e => mkReply (Unauthorized e) db []
  | Ok _ =>
      match parse_FeatureFlagCreate body with
      | Raise errs => mkReply (Unprocessable errs) db []
      | Ok flag_data =>
          match Crud.create_flag db flag_data (uuid4 w) (now w) with
          | (Ok flag, db') => mkReply (Created flag) db' [call_create_flag]
          | (Raise e, db') => mkReply (Failed e) db' [call_create_flag]
          end
      end
  end.

(** The largest integer that the engine takes as [OFFSET]: a signed 64-bit
    value. *)
Definition engine_int_max : Z := 9223372036854775807.

(** [list_feature_flags].  [skip] has a lower bound only; with an offset
    beyond the engine's integers the query of [list_flags] raises, nothing
    in [list_flags] or in the endpoint catches it, and
    [general_exception_handler] answers. *)
Definition list_feature_flags (w : World) (header : option string)
    (env : option string) (skip limit : option Z) (db : Session) : Reply :=
  match Auth.verify_api_key (settings w) (Auth.API_KEY_HEADER header) with
  | Raise e => mkReply (Unauthorized e) db []
  | Ok _ =>
      match query_int "skip" 0 0 None skip,
            query_int "limit" 100 1 (Some 1000) limit with
      | Ok s, Ok l =>
          if engine_int_max <? s
          then mkReply InternalError db [call_list_flags]
          else
            let flags := Crud.list_flags db env (Z.to_nat s) (Z.to_nat l) in
            let total := Crud.count_flags db env in
            mkReply (FlagList flags total) db [call_list_flags; call_count_flags]
      | rs, rl => mkReply (Unprocessable (errors rs ++ errors rl)) db []
      end
  end.

(** [fetch_feature_flag]. *)
Definition fetch_feature_flag (w : World) (header : option string)
    (n : string) (env : option string) (db : Session) : Reply :=
  match Auth.verify_api_key (settings w) (Auth.API_KEY_HEADER header) with
  | Raise e => mkReply (Unauthorized e) db []
  | Ok _ =>
      match query_str "environment" env with
      | Raise errs => mkReply (Unprocessable errs) db []
      | Ok e =>
          match Crud.get_flag db n e with
          | None => mkReply (Failed (FlagNotFoundError n e)) db [call_get_flag]
          | Some flag => mkReply (Flag flag) db [call_get_flag]
          end
      end
  end.

(** [update_feature_flag]. *)
Definition update_feature_flag (w : World) (header : option string)
    (n : string) (env : option string) (body : FeatureFlagUpdate)
    (db : Session) : Reply :=
  match Auth.verify_api_key (settings w) (Auth.API_KEY_HEADER header) with
  | Raise e => mkReply (Unauthorized e) db []
  | Ok _ =>
      match query_str "environment" env, parse_FeatureFlagUpdate body with
      | Ok e, Ok flag_data =>
          match Crud.update_flag db n e flag_data (now w) with
          | (None, db') => mkReply (Failed (FlagNotFoundError n e)) db' [call_update_flag]
          | (Some flag, db') => mkReply (Flag flag) db' [call_update_flag]
          end
      | re, rb => mkReply (Unprocessable (errors re ++ errors rb)) db []
      end
  end.

(** [delete_feature_flag]. *)
Definition delete_feature_flag (w : World) (header : option string)
    (n : string) (env : option string) (db : Session) : Reply :=
  match Auth.verify_api_key (settings w) (Auth.API_KEY_HEADER header) with
  | Raise e => mkReply (Unauthorized e) db []
  | Ok _ =>
      match query_str "environment" env with
      | Raise errs => mkReply (Unprocessable errs) db []
      | Ok e =>
          match Crud.delete_flag db n e with
          | (false, db') => mkReply (Failed (FlagNotFoundError n e)) db' [call_delete_flag]
          | (true, db') => mkReply NoContent db' [call_delete_flag]
          end
      end
  end.

(** The routes of the application. *)
Inductive Request : Type :=
| GET_health
| POST_flags (body : CreateBody)
| GET_flags (env : option string) (skip limit : option Z)
| GET_flag (n : string) (env : option string)
| PUT_flag (n : string) (env : option string) (body : FeatureFlagUpdate)
| DELETE_flag (n : string) (env : option string)
| POST_flags_undecodable                                  (* the body is not JSON *)
| PUT_flag_undecodable (n : string) (env : option string) (* the body is not JSON *).


(** The answer to a body that does not decode: the body of a route with a
    body parameter is decoded before the dependencies of the endpoint, and
    so before [verify_api_key], are called. *)
Definition json_invalid (db : Session) : Reply :=
  mkReply (Unprocessable [mkFieldError "body" "JSON decode error"]) db [].

(** Routing.  [header] is the value of [X-API-Key]; it reaches every
    endpoint that depends on [verify_api_key]. *)
Definition handle (w : World) (header : option string) (req : Request)
    (db : Session) : Reply :=
  match req with
  | GET_health => health_check w db
  | POST_flags body => create_feature_flag w header body db
  | GET_flags env skip limit => list_feature_flags w header env skip limit db
  | GET_flag n env => fetch_feature_flag w header n env db
  | PUT_flag n env body => update_feature_flag w header n env body db
  | DELETE_flag n env => delete_feature_flag w header n env db
  | POST_flags_undecodable => json_invalid db
  | PUT_flag_undecodable _ _ => json_invalid db
  end.


End Main.

(** ** Callers of the store *)

Module Client.
Import Schemas.

(** Exhaustive paging with a fixed [limit]: the pages at offsets [offset],
    [offset + limit], ... are requested from [Crud.list_flags] until a page
    comes back empty; the result is all records received.  Each further
    request starts beyond at least one more record of the query, which
    is why the loop ends. *)
Equations? page_through (db : Session) (env : option string)
    (limit offset : nat) : list FeatureFlag
    by wf (Crud.count_flags db env - offset)%nat lt :=
  page_through db env limit offset
    with Equations.Prop.Logic.inspect (Crud.list_flags db env offset limit) := {
    | exist _ [] _ => [];
    | exist _ (f :: page) _ =>
        (f :: page) ++ page_through db env limit (offset + limit) }.
Proof.
  unfold Crud.list_flags, Crud.count_flags in *.
  assert (Hlim : (0 < limit)%nat).
  { destruct limit; [discriminate | lia]. }
  assert (Hoff : (offset < List.length (Crud.query db env))%nat).
  { destruct (Nat.lt_ge_cases offset (List.length (Crud.query db env))) as [Hlt | Hge];
      [exact Hlt |].
    rewrite (skipn_all2 _ Hge), firstn_nil in e. discriminate. }
  lia.
Qed.

(** The writes that callers can make to the store. *)
Inductive Write : Type :=
| W_create (flag_data : FeatureFlagCreate) (new_id : UUID) (now : datetime)
| W_update (n e : string) (flag_data : FeatureFlagUpdate) (now : datetime)
| W_delete (n e : string).

(** The session after one write. *)
Definition apply_write (db : Session) (w : Write) : Session :=
  match w with
  | W_create flag_data new_id now => snd (Crud.create_flag db flag_data new_id now)
  | W_update n e flag_data now => snd (Crud.update_flag db n e flag_data now)
  | W_delete n e => snd (Crud.delete_flag db n e)
  end.

(** The session after a history of writes, starting from the empty table. *)
Definition after (history : list Write) : Session :=
  fold_left apply_write history [].

(** How many live records have the pair [(n, e)]. *)
Definition live (db : Session) (n e : string) : nat :=
  List.length (filter (has_pair n e) db).

(** The value of a field after an update: the supplied one, else the
    stored one. *)
Definition supplied {A : Type} (o : option A) (stored : A) : A :=
  match o with
  | Some v => v
  | None => stored
  end.

(** The payload supplies no field, or only values equal to the stored
    ones. *)
Definition changes_nothing (flag_data : FeatureFlagUpdate) (flag : FeatureFlag)
  : Prop :=
  (u_enabled flag_data = None \/ u_enabled flag_data = Some (enabled flag)) /\
  (u_rollout flag_data = None \/ u_rollout flag_data = Some (rollout flag)).

(** The value matches a member of the allowed set when case is ignored. *)
Definition matches_allowed (v : string) : Prop :=
  exists a, In a allowed /\ Py.lower v = Py.lower a.

End Client.

(** ** Sample data *)

Module Sample.
Import Schemas.

Definition new_ui : FeatureFlagCreate :=
  {| c_name := "new_ui"; c_environment := "dev"; c_enabled := true; c_rollout := 100 |}.

Definition new_ui_prod : FeatureFlagCreate :=
  {| c_name := "new_ui"; c_environment := "prod"; c_enabled := false; c_rollout := 25 |}.

Definition search : FeatureFlagCreate :=
  {| c_name := "search"; c_environment := "dev"; c_enabled := false; c_rollout := 0 |}.

(** A table with three flags, created in this order. *)
Definition three : Session :=
  Client.after [Client.W_create new_ui 1%N 10;
                Client.W_create new_ui_prod 2%N 20;
                Client.W_create search 3%N 30].

Definition world : Main.World :=
  {| Main.settings := Auth.default_settings; Main.uuid4 := 7%N;
     Main.now := 1000; Main.connected := true |}.

Definition key : option string := Some "dev-api-key-12345".

End Sample.


(** ** Stored data and kinds of requests *)

Module Data.
Import Schemas.

(** A row that satisfies the bounds of [FeatureFlagBase]. *)
Definition valid_flag (f : FeatureFlag) : Prop :=
  (1 <= String.length (name f) <= 100)%nat /\
  In (environment f) allowed /\
  0 <= rollout f <= 100.

(** Every row of the table satisfies them. *)
Definition valid_data (db : Session) : Prop := Forall valid_flag db.

(** The pair that a write addresses. *)
Definition target (w : Client.Write) : string * string :=
  match w with
  | Client.W_create flag_data _ _ => (c_name flag_data, c_environment flag_data)
  | Client.W_update n e _ _ => (n, e)
  | Client.W_delete n e => (n, e)
  end.

(** The responses with a status of 400 or above. *)
Definition is_error (r : Main.Response) : bool :=
  match r with
  | Main.Unauthorized _ | Main.Unprocessable _ | Main.Failed _
  | Main.InternalError => true
  | _ => false
  end.

(** The routes declared with [@app.get]. *)
Definition is_get (req : Main.Request) : bool :=
  match req with
  | Main.GET_health | Main.GET_flags _ _ _ | Main.GET_flag _ _ => true
  | _ => false
  end.

(** The characters of a string. *)
Definition chars (s : string) : list ascii := list_ascii_of_string s.


End Data.

(** * Properties *)

(** ** Listing, counting and paging *)

Section Listing.
Variable db : Session.

Lemma query_empty_string : Crud.query db (Some "") = Crud.query db None.
Proof. reflexivity. Qed.

Lemma query_none : Crud.query db None = db.
Proof. reflexivity. Qed.

Lemma list_flags_nil_iff (env : option string) (offset limit : nat) :
  (1 <= limit)%nat ->
  Crud.list_flags db env offset limit = [] <->
  (Crud.count_flags db env <= offset)%nat.
Proof.
  intros Hlim. unfold Crud.list_flags, Crud.count_flags.
  split.
  - intros Hnil.
    destruct (Nat.lt_ge_cases offset (List.length (Crud.query db env)))
      as [Hlt | Hge]; [exfalso | exact Hge].
    assert (Hlen : List.length (firstn limit (skipn offset (Crud.query db env))) = 0%nat)
      by (rewrite Hnil; reflexivity).
    rewrite length_firstn, length_skipn in Hlen. lia.
  - intros Hge. rewrite (skipn_all2 _ Hge). apply firstn_nil.
Qed.

(** One turn of the paging loop. *)
Lemma page_through_unfold (env : option string) (limit offset : nat) :
  Client.page_through db env limit offset =
  match Crud.list_flags db env offset limit with
  | [] => []
  | page => page ++ Client.page_through db env limit (offset + limit)
  end.
Proof.
  rewrite Client.page_through_equation_1.
  generalize (Equations.Prop.Logic.inspect (Crud.list_flags db env offset limit)).
  intros [[| f page] e]; cbn; rewrite e; reflexivity.
Qed.

(** With a limit of at least one, paging from [offset] collects exactly the
    records of the query from position [offset] on. *)
Lemma page_through_skipn (env : option string) (limit : nat) :
  (1 <= limit)%nat ->
  forall (k offset : nat),
    (Crud.count_flags db env - offset <= k)%nat ->
    Client.page_through db env limit offset = skipn offset (Crud.query db env).
Proof.
  intros Hlim k. induction k as [| k IH]; intros offset Hk;
    rewrite page_through_unfold;
    destruct (Crud.list_flags db env offset limit) as [| f page] eqn:Hpage.
  - apply list_flags_nil_iff in Hpage; [| exact Hlim].
    symmetry. apply skipn_all2. exact Hpage.
  - assert (Hpos : ~ (Crud.count_flags db env <= offset)%nat).
    { intros Hle. apply (list_flags_nil_iff env offset limit Hlim) in Hle.
      congruence. }
    lia.
  - apply list_flags_nil_iff in Hpage; [| exact Hlim].
    symmetry. apply skipn_all2. exact Hpage.
  - assert (Hpos : ~ (Crud.count_flags db env <= offset)%nat).
    { intros Hle. apply (list_flags_nil_iff env offset limit Hlim) in Hle.
      congruence. }
    rewrite IH by lia.
    rewrite <- Hpage. unfold Crud.list_flags.
    rewrite (Nat.add_comm offset limit), <- skipn_skipn.
    apply firstn_skipn.
Qed.
End Listing.

(** C10.  An empty-string environment filter behaves as an omitted one: for
    every store, every offset and every limit, [list_flags] and [count_flags]
    with [environment=""] return the page and the cardinality over all
    environments (the unfiltered table), and so does the list endpoint. *)
Theorem empty_environment_is_no_filter (db : Session) (skip limit : nat) :
  Crud.list_flags db (Some "") skip limit = Crud.list_flags db None skip limit /\
  Crud.count_flags db (Some "") = Crud.count_flags db None /\
  Crud.list_flags db (Some "") skip limit = firstn limit (skipn skip db) /\
  Crud.count_flags db (Some "") = List.length db /\
  (forall w header s l,
     Main.list_feature_flags w header (Some "") s l db =
     Main.list_feature_flags w header None s l db).
Proof.
  repeat split.
Qed.

(** On the sample table no record has the empty environment, yet the empty
    filter returns all three records. *)
Example empty_environment_sample :
  filter (in_environment "") Sample.three = [] /\
  Crud.count_flags Sample.three (Some "") = 3%nat /\
  Crud.count_flags Sample.three (Some "dev") = 2%nat.
Proof. repeat split. Qed.

(** C6.  For every environment filter and every fixed limit of at least one,
    the number of records received by paging [list_flags] exhaustively from
    offset zero equals [count_flags] for the same filter on the same table
    (the pages are, in order, the records of the query); and the total that
    the list endpoint reports is that count whatever offset and limit the
    request carries. *)
Theorem count_equals_exhaustive_paging
    (db : Session) (env : option string) (limit : nat) :
  (1 <= limit)%nat ->
  List.length (Client.page_through db env limit 0) = Crud.count_flags db env /\
  Client.page_through db env limit 0 = Crud.query db env /\
  (forall w header skip lim flags total,
     Main.response (Main.list_feature_flags w header env skip lim db)
       = Main.FlagList flags total ->
     total = Crud.count_flags db env).
Proof.
  intros Hlim.
  assert (Hall : Client.page_through db env limit 0 = Crud.query db env).
  { rewrite (page_through_skipn db env limit Hlim (Crud.count_flags db env) 0) by lia.
    reflexivity. }
  split; [| split].
  - rewrite Hall. reflexivity.
  - exact Hall.
  - intros w header skip lim flags total.
    unfold Main.list_feature_flags.
    destruct (Auth.verify_api_key _ _); [| discriminate].
    destruct (Main.query_int "skip" 0 0 None skip) as [s | errs];
      destruct (Main.query_int "limit" 100 1 (Some 1000) lim);
      try destruct (Main.engine_int_max <? s);
      cbn; intros H; inversion H; reflexivity.
Qed.

Lemma count_equals_exhaustive_paging_witness :
  (1 <= 2)%nat /\
  List.length (Client.page_through Sample.three (Some "dev") 2 0) = 2%nat.
Proof.
  split; [lia |].
  apply (count_equals_exhaustive_paging Sample.three (Some "dev") 2). lia.
Defined.

(** ** The table and its constraints *)

Lemma has_pair_true (n e : string) (f : FeatureFlag) :
  has_pair n e f = true <-> name f = n /\ environment f = e.
Proof.
  unfold has_pair. rewrite andb_true_iff, !String.eqb_eq. reflexivity.
Qed.

Lemma has_pair_pair (f g : FeatureFlag) :
  has_pair (name f) (environment f) g = true <-> pair g = pair f.
Proof.
  rewrite has_pair_true. unfold pair. split.
  - intros [Hn He]. congruence.
  - intros H. inversion H. split; reflexivity.
Qed.

Lemma has_id_true (i : UUID) (f : FeatureFlag) : has_id i f = true <-> id f = i.
Proof. unfold has_id. apply N.eqb_eq. Qed.

Lemma str_in_In (x : string) (xs : list string) :
  Py.str_in x xs = true <-> In x xs.
Proof.
  unfold Py.str_in. rewrite existsb_exists. split.
  - intros [y [Hin Heq]]. apply String.eqb_eq in Heq. subst. exact Hin.
  - intros Hin. exists x. split; [exact Hin | apply String.eqb_refl].
Qed.

Section Keys.
Context {A K : Type} (key : A -> K).

(** Two rows of a table with the same value of a unique key are one row. *)
Lemma unique_key (l : list A) (x y : A) :
  NoDup (map key l) -> In x l -> In y l -> key x = key y -> x = y.
Proof.
  induction l as [| a l IH]; cbn; intros Hnd Hx Hy Hxy; [contradiction |].
  apply NoDup_cons_iff in Hnd. destruct Hnd as [Hnotin Hnd].
  destruct Hx as [-> | Hx], Hy as [-> | Hy].
  - reflexivity.
  - exfalso. apply Hnotin. rewrite Hxy. apply in_map. exact Hy.
  - exfalso. apply Hnotin. rewrite <- Hxy. apply in_map. exact Hx.
  - apply IH; assumption.
Qed.

Lemma unique_key_filter (p : A -> bool) (l : list A) :
  NoDup (map key l) -> NoDup (map key (filter p l)).
Proof.
  induction l as [| a l IH]; cbn; intros Hnd; [constructor |].
  apply NoDup_cons_iff in Hnd. destruct Hnd as [Hnotin Hnd].
  destruct (p a); cbn; [| apply IH; exact Hnd].
  constructor; [| apply IH; exact Hnd].
  intros Hin. apply Hnotin.
  apply in_map_iff in Hin. destruct Hin as [x [Hx Hin]].
  apply filter_In in Hin. rewrite <- Hx. apply in_map. apply Hin.
Qed.

Lemma unique_key_snoc (l : list A) (a : A) :
  NoDup (map key l) -> (forall x, In x l -> key x <> key a) ->
  NoDup (map key (l ++ [a])).
Proof.
  intros Hnd Hfresh. rewrite map_app. apply NoDup_app.
  - exact Hnd.
  - cbn. constructor; [intros [] | constructor].
  - intros k Hk [Hka | []]. apply in_map_iff in Hk.
    destruct Hk as [x [Hx Hin]]. apply (Hfresh x Hin). congruence.
Qed.
End Keys.

Lemma existsb_false_forall {A : Type} (p : A -> bool) (l : list A) :
  existsb p l = false -> forall x, In x l -> p x = false.
Proof.
  intros H x Hin. destruct (p x) eqn:Hp; [| reflexivity].
  assert (Ht : existsb p l = true) by (apply existsb_exists; exists x; split; assumption).
  congruence.
Qed.

Lemma insert_row_keeps_constraints (db db' : Session) (f : FeatureFlag) :
  insert_row db f = Some db' -> constraints_hold db -> constraints_hold db'.
Proof.
  unfold insert_row.
  destruct (existsb (has_id (id f)) db) eqn:Hid; [discriminate |].
  destruct (existsb (has_pair (name f) (environment f)) db) eqn:Hpair; [discriminate |].
  intros H [Hids Hpairs]. inversion H; subst db'. clear H. split.
  - apply unique_key_snoc; [exact Hids |].
    intros x Hin Heq.
    pose proof (existsb_false_forall _ _ Hid x Hin) as Hx.
    apply has_id_true in Heq. congruence.
  - apply unique_key_snoc; [exact Hpairs |].
    intros x Hin Heq.
    pose proof (existsb_false_forall _ _ Hpair x Hin) as Hx.
    apply has_pair_pair in Heq. congruence.
Qed.

Lemma update_row_keeps_keys (db : Session) (flag flag' : FeatureFlag) :
  NoDup (map id db) -> In flag db ->
  id flag' = id flag -> pair flag' = pair flag ->
  map id (update_row db (id flag) flag') = map id db /\
  map pair (update_row db (id flag) flag') = map pair db.
Proof.
  intros Hnd Hin Hid Hpair. unfold update_row. rewrite !map_map.
  split; apply map_ext_in; intros g Hg;
    destruct (has_id (id flag) g) eqn:Hg_id; try reflexivity;
    apply has_id_true in Hg_id;
    rewrite (unique_key id db g flag Hnd Hg Hin Hg_id); assumption.
Qed.

Lemma delete_row_keeps_constraints (db : Session) (i : UUID) :
  constraints_hold db -> constraints_hold (delete_row db i).
Proof.
  intros [Hids Hpairs]. split; apply unique_key_filter; assumption.
Qed.

(** ** The store operations *)

Section Store.
Import Schemas.

Lemma get_flag_Some (db : Session) (n e : string) (f : FeatureFlag) :
  Crud.get_flag db n e = Some f -> In f db /\ name f = n /\ environment f = e.
Proof.
  intros H. apply find_some in H. destruct H as [Hin Hp].
  apply has_pair_true in Hp. tauto.
Qed.

Lemma get_flag_None (db : Session) (n e : string) :
  Crud.get_flag db n e = None <-> existsb (has_pair n e) db = false.
Proof.
  unfold Crud.get_flag. induction db as [| g db IH]; cbn; [tauto |].
  destruct (has_pair n e g); cbn; [| exact IH].
  split; discriminate.
Qed.

Lemma get_flag_snoc (db : Session) (n e : string) (f : FeatureFlag) :
  Crud.get_flag (db ++ [f]) n e =
  match Crud.get_flag db n e with
  | Some g => Some g
  | None => if has_pair n e f then Some f else None
  end.
Proof.
  unfold Crud.get_flag. induction db as [| g db IH]; cbn; [reflexivity |].
  destruct (has_pair n e g); [reflexivity | exact IH].
Qed.

(** A record counted by [live] is found by [get_flag]. *)
Lemma live_zero_iff (db : Session) (n e : string) :
  Client.live db n e = 0%nat <-> Crud.get_flag db n e = None.
Proof.
  unfold Client.live, Crud.get_flag. induction db as [| g db IH]; cbn; [tauto |].
  destruct (has_pair n e g); cbn; [| exact IH].
  split; discriminate.
Qed.

Lemma live_at_most_one (db : Session) (n e : string) :
  NoDup (map pair db) -> (Client.live db n e <= 1)%nat.
Proof.
  unfold Client.live. induction db as [| g db IH]; cbn; intros Hnd; [lia |].
  apply NoDup_cons_iff in Hnd. destruct Hnd as [Hnotin Hnd].
  destruct (has_pair n e g) eqn:Hg; cbn; [| apply IH; exact Hnd].
  assert (Hnone : filter (has_pair n e) db = []).
  { destruct (filter (has_pair n e) db) as [| x l] eqn:Hf; [reflexivity |].
    exfalso. apply Hnotin.
    assert (Hx : In x (filter (has_pair n e) db)) by (rewrite Hf; left; reflexivity).
    apply filter_In in Hx. destruct Hx as [Hin Hx].
    apply has_pair_true in Hg, Hx.
    replace (pair g) with (pair x); [apply in_map; exact Hin |].
    unfold pair. destruct Hg, Hx. congruence. }
  rewrite Hnone. cbn. lia.
Qed.

(** [create_flag] on a pair that is taken. *)
Lemma create_flag_taken (db : Session) (flag_data : FeatureFlagCreate)
    (new_id : UUID) (now : datetime) :
  Crud.get_flag db (c_name flag_data) (c_environment flag_data) <> None ->
  Crud.create_flag db flag_data new_id now =
  (Raise (FlagAlreadyExistsError (c_name flag_data) (c_environment flag_data)), db).
Proof.
  intros H. unfold Crud.create_flag.
  destruct (Crud.get_flag db (c_name flag_data) (c_environment flag_data));
    [reflexivity | congruence].
Qed.

(** [create_flag] on a free pair with a fresh identifier. *)
Lemma create_flag_free (db : Session) (flag_data : FeatureFlagCreate)
    (new_id : UUID) (now : datetime) :
  Crud.get_flag db (c_name flag_data) (c_environment flag_data) = None ->
  existsb (has_id new_id) db = false ->
  Crud.create_flag db flag_data new_id now =
  let flag := mkFeatureFlag new_id (c_name flag_data) (c_environment flag_data)
                (c_enabled flag_data) (c_rollout flag_data) now in
  (Ok flag, db ++ [flag]).
Proof.
  intros Hfree Hid. unfold Crud.create_flag, insert_row. rewrite Hfree. cbn.
  rewrite Hid. apply get_flag_None in Hfree. rewrite Hfree. reflexivity.
Qed.

(** Whatever [create_flag] returns, the session afterwards is the one before
    or the one before with the new row at the end. *)
Lemma create_flag_cases (db : Session) (flag_data : FeatureFlagCreate)
    (new_id : UUID) (now : datetime) :
  (exists e, Crud.create_flag db flag_data new_id now = (Raise e, db)) \/
  (exists flag db',
      Crud.create_flag db flag_data new_id now = (Ok flag, db') /\
      insert_row db flag = Some db' /\
      Crud.get_flag db (c_name flag_data) (c_environment flag_data) = None /\
      flag = mkFeatureFlag new_id (c_name flag_data) (c_environment flag_data)
               (c_enabled flag_data) (c_rollout flag_data) now).
Proof.
  unfold Crud.create_flag.
  destruct (Crud.get_flag db (c_name flag_data) (c_environment flag_data)) eqn:Hget.
  - left. eexists. reflexivity.
  - match goal with |- context [insert_row db ?f] => destruct (insert_row db f) eqn:Hins end.
    + right. eexists. eexists. repeat split. exact Hins.
    + left. eexists. reflexivity.
Qed.

(** The fields of the flag that [update_flag] builds. *)
Lemma update_flag_found (db : Session) (n e : string)
    (flag_data : FeatureFlagUpdate) (now : datetime) (flag : FeatureFlag) :
  Crud.get_flag db n e = Some flag ->
  (Client.changes_nothing flag_data flag /\
   Crud.update_flag db n e flag_data now = (Some flag, db)) \/
  (~ Client.changes_nothing flag_data flag /\
   let flag' := mkFeatureFlag (id flag) (name flag) (environment flag)
                  (Client.supplied (u_enabled flag_data) (enabled flag))
                  (Client.supplied (u_rollout flag_data) (rollout flag)) now in
   Crud.update_flag db n e flag_data now =
   (Some flag', update_row db (id flag) flag')).
Proof.
  intros Hget. unfold Crud.update_flag, Client.changes_nothing. rewrite Hget.
  unfold Crud.apply_enabled, Crud.apply_rollout, Crud.touch.
  destruct flag_data as [[b |] [r |]]; cbn.
  - destruct (Bool.eqb b (enabled flag)) eqn:Hb; cbn;
      destruct (r =? rollout flag) eqn:Hr; cbn.
    + left. apply eqb_prop in Hb. apply Z.eqb_eq in Hr. subst. tauto.
    + right. apply eqb_prop in Hb. apply Z.eqb_neq in Hr. subst b.
      split; [| reflexivity]. intros [_ [H | H]]; congruence.
    + right. apply eqb_false_iff in Hb. apply Z.eqb_eq in Hr. subst r.
      split; [| reflexivity]. intros [[H | H] _]; congruence.
    + right. apply eqb_false_iff in Hb.
      split; [| reflexivity]. intros [[H | H] _]; congruence.
  - destruct (Bool.eqb b (enabled flag)) eqn:Hb; cbn.
    + left. apply eqb_prop in Hb. subst. tauto.
    + right. apply eqb_false_iff in Hb.
      split; [| reflexivity]. intros [[H | H] _]; congruence.
  - destruct (r =? rollout flag) eqn:Hr; cbn.
    + left. apply Z.eqb_eq in Hr. subst. tauto.
    + right. apply Z.eqb_neq in Hr.
      split; [| reflexivity]. intros [_ [H | H]]; congruence.
  - left. tauto.
Qed.

Lemma update_flag_absent (db : Session) (n e : string)
    (flag_data : FeatureFlagUpdate) (now : datetime) :
  Crud.get_flag db n e = None ->
  Crud.update_flag db n e flag_data now = (None, db).
Proof. intros H. unfold Crud.update_flag. rewrite H. reflexivity. Qed.

(** After [UPDATE ... WHERE id = id flag], the pair of [flag] denotes the
    new row. *)
Lemma get_flag_update_row (db : Session) (n e : string) (flag flag' : FeatureFlag) :
  Crud.get_flag db n e = Some flag ->
  name flag' = n -> environment flag' = e ->
  Crud.get_flag (update_row db (id flag) flag') n e = Some flag'.
Proof.
  intros Hget Hn He. unfold Crud.get_flag, update_row in *.
  assert (Hnew : has_pair n e flag' = true) by (apply has_pair_true; tauto).
  induction db as [| g db IH]; cbn in *; [discriminate |].
  destruct (has_pair n e g) eqn:Hg.
  - inversion Hget; subst g.
    assert (Hid : has_id (id flag) flag = true) by (apply has_id_true; reflexivity).
    rewrite Hid, Hnew. reflexivity.
  - destruct (has_id (id flag) g).
    + rewrite Hnew. reflexivity.
    + rewrite Hg. apply IH. exact Hget.
Qed.
End Store.

(** ** The endpoints behind a valid key *)

Section Authorized.
Import Schemas.
Variable w : Main.World.
Variable header : option string.
Variable k : string.
Hypothesis Hkey :
  Auth.verify_api_key (Main.settings w) (Auth.API_KEY_HEADER header) = Ok k.

Lemma create_authorized (body : CreateBody) (db : Session) :
  Main.handle w header (Main.POST_flags body) db =
  match parse_FeatureFlagCreate body with
  | Raise errs => Main.mkReply (Main.Unprocessable errs) db []
  | Ok flag_data =>
      match Crud.create_flag db flag_data (Main.uuid4 w) (Main.now w) with
      | (Ok flag, db') => Main.mkReply (Main.Created flag) db' [Main.call_create_flag]
      | (Raise e, db') => Main.mkReply (Main.Failed e) db' [Main.call_create_flag]
      end
  end.
Proof. cbn. unfold Main.create_feature_flag. rewrite Hkey. reflexivity. Qed.

Lemma fetch_authorized (n e : string) (db : Session) :
  Main.handle w header (Main.GET_flag n (Some e)) db =
  match Crud.get_flag db n e with
  | None => Main.mkReply (Main.Failed (FlagNotFoundError n e)) db [Main.call_get_flag]
  | Some flag => Main.mkReply (Main.Flag flag) db [Main.call_get_flag]
  end.
Proof. cbn. unfold Main.fetch_feature_flag. rewrite Hkey. reflexivity. Qed.

Lemma update_authorized (n e : string) (body : FeatureFlagUpdate) (db : Session) :
  Main.handle w header (Main.PUT_flag n (Some e) body) db =
  match parse_FeatureFlagUpdate body with
  | Raise errs => Main.mkReply (Main.Unprocessable errs) db []
  | Ok flag_data =>
      match Crud.update_flag db n e flag_data (Main.now w) with
      | (None, db') =>
          Main.mkReply (Main.Failed (FlagNotFoundError n e)) db' [Main.call_update_flag]
      | (Some flag, db') => Main.mkReply (Main.Flag flag) db' [Main.call_update_flag]
      end
  end.
Proof.
  cbn. unfold Main.update_feature_flag. rewrite Hkey. cbn.
  destruct (parse_FeatureFlagUpdate body); reflexivity.
Qed.

Lemma delete_authorized (n e : string) (db : Session) :
  Main.handle w header (Main.DELETE_flag n (Some e)) db =
  match Crud.delete_flag db n e with
  | (false, db') =>
      Main.mkReply (Main.Failed (FlagNotFoundError n e)) db' [Main.call_delete_flag]
  | (true, db') => Main.mkReply Main.NoContent db' [Main.call_delete_flag]
  end.
Proof. cbn. unfold Main.delete_feature_flag. rewrite Hkey. reflexivity. Qed.
End Authorized.

Lemma sample_key_valid :
  Auth.verify_api_key (Main.settings Sample.world) (Auth.API_KEY_HEADER Sample.key)
  = Ok "dev-api-key-12345".
Proof. reflexivity. Qed.

(** ** Every write keeps the constraints *)

Section Writes.
Import Schemas.

Lemma create_flag_keeps_constraints (db : Session) (flag_data : FeatureFlagCreate)
    (new_id : UUID) (now : datetime) :
  constraints_hold db ->
  constraints_hold (snd (Crud.create_flag db flag_data new_id now)).
Proof.
  intros Hok.
  destruct (create_flag_cases db flag_data new_id now)
    as [[e ->] | [flag [db' [-> [Hins _]]]]]; cbn.
  - exact Hok.
  - apply (insert_row_keeps_constraints db db' flag Hins Hok).
Qed.

Lemma update_flag_keeps_constraints (db : Session) (n e : string)
    (flag_data : FeatureFlagUpdate) (now : datetime) :
  constraints_hold db ->
  constraints_hold (snd (Crud.update_flag db n e flag_data now)).
Proof.
  intros Hok. destruct (Crud.get_flag db n e) as [flag |] eqn:Hget.
  - destruct (update_flag_found db n e flag_data now flag Hget)
      as [[_ ->] | [_ Hupd]]; [exact Hok |].
    cbn in Hupd. rewrite Hupd. cbn.
    destruct Hok as [Hids Hpairs].
    apply get_flag_Some in Hget. destruct Hget as [Hin _].
    match goal with |- constraints_hold (update_row db _ ?f) =>
      destruct (update_row_keeps_keys db flag f Hids Hin eq_refl eq_refl) as [Hi Hp]
    end.
    unfold constraints_hold. rewrite Hi, Hp. split; assumption.
  - rewrite (update_flag_absent db n e flag_data now Hget). exact Hok.
Qed.

Lemma delete_flag_keeps_constraints (db : Session) (n e : string) :
  constraints_hold db -> constraints_hold (snd (Crud.delete_flag db n e)).
Proof.
  intros Hok. unfold Crud.delete_flag.
  destruct (Crud.get_flag db n e); cbn;
    [apply delete_row_keeps_constraints |]; exact Hok.
Qed.

Lemma apply_write_keeps_constraints (db : Session) (w : Client.Write) :
  constraints_hold db -> constraints_hold (Client.apply_write db w).
Proof.
  destruct w; cbn.
  - apply create_flag_keeps_constraints.
  - apply update_flag_keeps_constraints.
  - apply delete_flag_keeps_constraints.
Qed.

(** The constraints hold after every history of writes. *)
Lemma after_constraints (history : list Client.Write) :
  constraints_hold (Client.after history).
Proof.
  unfold Client.after.
  induction history as [| w history IH] using rev_ind.
  - split; constructor.
  - rewrite fold_left_app. cbn. apply apply_write_keeps_constraints. exact IH.
Qed.
End Writes.

(** C1.  After every history of create, update and delete calls, each pair
    (name, environment) denotes at most one live record; and on every session
    a [create_flag] for a pair that denotes a live record raises
    [FlagAlreadyExistsError] for that pair and leaves the session as it was:
    no second row is inserted.  The create endpoint passes that outcome on
    with the session unchanged. *)
Theorem pair_unique_and_create_conflicts (history : list Client.Write) :
  (forall n e, (Client.live (Client.after history) n e <= 1)%nat) /\
  (forall (db : Session) flag_data new_id now,
     Crud.get_flag db (Schemas.c_name flag_data) (Schemas.c_environment flag_data)
       <> None ->
     Crud.create_flag db flag_data new_id now =
     (Raise (FlagAlreadyExistsError (Schemas.c_name flag_data)
               (Schemas.c_environment flag_data)), db)) /\
  (forall (db : Session) w header k body flag_data,
     Auth.verify_api_key (Main.settings w) (Auth.API_KEY_HEADER header) = Ok k ->
     Schemas.parse_FeatureFlagCreate body = Ok flag_data ->
     Crud.get_flag db (Schemas.c_name flag_data) (Schemas.c_environment flag_data)
       <> None ->
     Main.handle w header (Main.POST_flags body) db =
     Main.mkReply
       (Main.Failed (FlagAlreadyExistsError (Schemas.c_name flag_data)
                       (Schemas.c_environment flag_data)))
       db [Main.call_create_flag]).
Proof.
  split; [| split].
  - intros n e. apply live_at_most_one. apply after_constraints.
  - apply create_flag_taken.
  - intros db w header k body flag_data Hkey Hparse Htaken.
    rewrite (create_authorized w header k Hkey), Hparse.
    rewrite (create_flag_taken db flag_data (Main.uuid4 w) (Main.now w) Htaken).
    reflexivity.
Qed.

Lemma pair_unique_and_create_conflicts_witness :
  (Client.live Sample.three "new_ui" "dev" <= 1)%nat /\
  Crud.get_flag Sample.three "new_ui" "dev" <> None /\
  Crud.create_flag Sample.three Sample.new_ui 9%N 40 =
  (Raise (FlagAlreadyExistsError "new_ui" "dev"), Sample.three) /\
  Main.handle Sample.world Sample.key
    (Main.POST_flags (Schemas.mkCreateBody (Some "new_ui") (Some "DEV") (Some true) None))
    Sample.three
  = Main.mkReply (Main.Failed (FlagAlreadyExistsError "new_ui" "dev")) Sample.three
      [Main.call_create_flag].
Proof.
  pose proof (pair_unique_and_create_conflicts
                [Client.W_create Sample.new_ui 1%N 10;
                 Client.W_create Sample.new_ui_prod 2%N 20;
                 Client.W_create Sample.search 3%N 30]) as [Hlive [Hcreate Hpost]].
  assert (Htaken : Crud.get_flag Sample.three "new_ui" "dev" <> None).
  { vm_compute. discriminate. }
  split; [| split; [| split]].
  - apply Hlive.
  - exact Htaken.
  - exact (Hcreate Sample.three Sample.new_ui 9%N 40 Htaken).
  - exact (Hpost Sample.three Sample.world Sample.key "dev-api-key-12345"
             (Schemas.mkCreateBody (Some "new_ui") (Some "DEV") (Some true) None)
             Sample.new_ui eq_refl eq_refl Htaken).
Defined.

(** C4.  When [create_flag] succeeds for an input, [get_flag] with the name
    and environment of that input returns the created record; its name,
    environment, enabled and rollout are those of the input, its id is the
    generated identifier and its updated_at the time of creation. *)
Theorem create_then_get (db db' : Session) (flag_data : Schemas.FeatureFlagCreate)
    (new_id : UUID) (now : datetime) (flag : FeatureFlag) :
  Crud.create_flag db flag_data new_id now = (Ok flag, db') ->
  Crud.get_flag db' (Schemas.c_name flag_data) (Schemas.c_environment flag_data)
    = Some flag /\
  name flag = Schemas.c_name flag_data /\
  environment flag = Schemas.c_environment flag_data /\
  enabled flag = Schemas.c_enabled flag_data /\
  rollout flag = Schemas.c_rollout flag_data /\
  id flag = new_id /\
  updated_at flag = now.
Proof.
  intros Hcreate.
  destruct (create_flag_cases db flag_data new_id now)
    as [[e He] | [flag0 [db0 [H0 [Hins [Hfree Hflag]]]]]]; [congruence |].
  rewrite H0 in Hcreate. inversion Hcreate; subst. clear Hcreate.
  unfold insert_row in Hins. cbn in Hins.
  destruct (existsb (has_id new_id) db); [discriminate |].
  destruct (existsb (has_pair _ _) db); [discriminate |].
  inversion Hins; subst. clear Hins.
  rewrite get_flag_snoc, Hfree. unfold has_pair. cbn.
  rewrite !String.eqb_refl. cbn. repeat split.
Qed.

Lemma create_then_get_witness :
  let flag := mkFeatureFlag 4%N "search" "prod" true 50 40 in
  Crud.create_flag Sample.three (Schemas.mkFeatureFlagCreate "search" "prod" true 50)
    4%N 40
  = (Ok flag, Sample.three ++ [flag]) /\
  Crud.get_flag (Sample.three ++ [flag]) "search" "prod" = Some flag.
Proof.
  cbv zeta. split; [reflexivity |].
  apply (create_then_get Sample.three _
           (Schemas.mkFeatureFlagCreate "search" "prod" true 50) 4%N 40).
  reflexivity.
Defined.

(** ** Delete *)

Section Delete.
Variable db : Session.
Hypothesis Hok : constraints_hold db.

(** The rows that remain when the row [flag] is deleted by its key. *)
Lemma delete_row_In (flag g : FeatureFlag) :
  In flag db -> (In g (delete_row db (id flag)) <-> In g db /\ g <> flag).
Proof.
  intros Hin. unfold delete_row. rewrite filter_In, negb_true_iff.
  destruct Hok as [Hids _]. split; intros [Hg Hne]; split; try exact Hg.
  - intros ->. assert (H : has_id (id flag) flag = true) by (apply has_id_true; reflexivity).
    congruence.
  - destruct (has_id (id flag) g) eqn:Hid; [| reflexivity].
    apply has_id_true in Hid. exfalso. apply Hne.
    apply (unique_key id db g flag Hids Hg Hin Hid).
Qed.

Lemma get_flag_delete_row (n e : string) (flag : FeatureFlag) :
  Crud.get_flag db n e = Some flag ->
  Crud.get_flag (delete_row db (id flag)) n e = None.
Proof.
  intros Hget. apply get_flag_Some in Hget. destruct Hget as [Hin [Hn He]].
  destruct (Crud.get_flag (delete_row db (id flag)) n e) as [g |] eqn:Hg;
    [exfalso | reflexivity].
  apply get_flag_Some in Hg. destruct Hg as [Hg [Hgn Hge]].
  apply (delete_row_In flag g Hin) in Hg. destruct Hg as [Hg Hne].
  apply Hne. destruct Hok as [_ Hpairs].
  apply (unique_key pair db g flag Hpairs Hg Hin).
  unfold pair. congruence.
Qed.
End Delete.

(** C5.  On a table that satisfies its constraints, [delete_flag] returns
    true exactly when a record with the pair existed, and then that record,
    and no other, is removed; it returns false exactly when none existed, and
    then the table is untouched.  The call always returns a boolean.  After
    it, [get_flag] on the pair returns nothing and a second [delete_flag] on
    the pair returns false. *)
Theorem delete_is_final (db db' : Session) (n e : string) (deleted : bool) :
  constraints_hold db ->
  Crud.delete_flag db n e = (deleted, db') ->
  (deleted = true <-> Crud.get_flag db n e <> None) /\
  (deleted = false <-> Crud.get_flag db n e = None) /\
  (deleted = true ->
   exists flag, Crud.get_flag db n e = Some flag /\
                forall g, In g db' <-> In g db /\ g <> flag) /\
  (deleted = false -> db' = db) /\
  Crud.get_flag db' n e = None /\
  Crud.delete_flag db' n e = (false, db').
Proof.
  intros Hok Hdel. unfold Crud.delete_flag in Hdel.
  destruct (Crud.get_flag db n e) as [flag |] eqn:Hget;
    inversion Hdel; subst deleted db'; clear Hdel.
  - assert (Hgone : Crud.get_flag (delete_row db (id flag)) n e = None)
      by (apply get_flag_delete_row; assumption).
    repeat split; try discriminate; try congruence.
    + exists flag. split; [reflexivity |].
      intros g. apply delete_row_In; [exact Hok |].
      apply get_flag_Some in Hget. apply Hget.
    + unfold Crud.delete_flag. rewrite Hgone. reflexivity.
  - repeat split; try discriminate; try congruence.
    unfold Crud.delete_flag. rewrite Hget. reflexivity.
Qed.

Lemma delete_is_final_witness :
  Crud.delete_flag Sample.three "new_ui" "dev" = (true, delete_row Sample.three 1%N) /\
  Crud.get_flag (delete_row Sample.three 1%N) "new_ui" "dev" = None /\
  Crud.delete_flag (delete_row Sample.three 1%N) "new_ui" "dev"
  = (false, delete_row Sample.three 1%N).
Proof.
  split; [reflexivity |].
  apply (delete_is_final Sample.three (delete_row Sample.three 1%N)
           "new_ui" "dev" true).
  - apply (after_constraints
             [Client.W_create Sample.new_ui 1%N 10;
              Client.W_create Sample.new_ui_prod 2%N 20;
              Client.W_create Sample.search 3%N 30]).
  - reflexivity.
Defined.

(** ** Update *)

(** C3.  For an existing flag, an update whose payload supplies no field, or
    only values equal to the stored ones, returns the stored record itself
    (every field, updated_at included) and leaves the table as it was; any
    other update returns and stores the record whose enabled and rollout are
    the supplied values where supplied and the stored ones otherwise, whose
    updated_at is the current time, and whose other fields are the stored
    ones. *)
Theorem update_noop_or_refresh (db : Session) (n e : string)
    (flag_data : Schemas.FeatureFlagUpdate) (now : datetime) (flag : FeatureFlag) :
  Crud.get_flag db n e = Some flag ->
  (Client.changes_nothing flag_data flag ->
   Crud.update_flag db n e flag_data now = (Some flag, db)) /\
  (~ Client.changes_nothing flag_data flag ->
   exists flag' db',
     Crud.update_flag db n e flag_data now = (Some flag', db') /\
     flag' = mkFeatureFlag (id flag) (name flag) (environment flag)
               (Client.supplied (Schemas.u_enabled flag_data) (enabled flag))
               (Client.supplied (Schemas.u_rollout flag_data) (rollout flag))
               now /\
     db' = update_row db (id flag) flag' /\
     Crud.get_flag db' n e = Some flag').
Proof.
  intros Hget.
  destruct (update_flag_found db n e flag_data now flag Hget)
    as [[Hsame Hupd] | [Hdiff Hupd]]; split; intros H; try contradiction.
  - exact Hupd.
  - cbn in Hupd. eexists. eexists. split; [exact Hupd |].
    repeat split.
    apply get_flag_Some in Hget as Hflag. destruct Hflag as [_ [Hn He]].
    apply get_flag_update_row; assumption.
Qed.

Lemma update_noop_or_refresh_witness :
  Crud.get_flag Sample.three "new_ui" "dev"
  = Some (mkFeatureFlag 1%N "new_ui" "dev" true 100 10) /\
  Crud.update_flag Sample.three "new_ui" "dev"
    (Schemas.mkFeatureFlagUpdate None None) 99
  = (Some (mkFeatureFlag 1%N "new_ui" "dev" true 100 10), Sample.three) /\
  Crud.update_flag Sample.three "new_ui" "dev"
    (Schemas.mkFeatureFlagUpdate (Some true) (Some 100)) 99
  = (Some (mkFeatureFlag 1%N "new_ui" "dev" true 100 10), Sample.three) /\
  exists flag' db',
    Crud.update_flag Sample.three "new_ui" "dev"
      (Schemas.mkFeatureFlagUpdate (Some false) (Some 50)) 99 = (Some flag', db') /\
    flag' = mkFeatureFlag 1%N "new_ui" "dev" false 50 99 /\
    db' = update_row Sample.three 1%N flag' /\
    Crud.get_flag db' "new_ui" "dev" = Some flag'.
Proof.
  split; [reflexivity |]. split; [| split].
  - apply (update_noop_or_refresh Sample.three "new_ui" "dev"
             (Schemas.mkFeatureFlagUpdate None None) 99
             (mkFeatureFlag 1%N "new_ui" "dev" true 100 10)).
    + reflexivity.
    + split; left; reflexivity.
  - apply (update_noop_or_refresh Sample.three "new_ui" "dev"
             (Schemas.mkFeatureFlagUpdate (Some true) (Some 100)) 99
             (mkFeatureFlag 1%N "new_ui" "dev" true 100 10)).
    + reflexivity.
    + split; right; reflexivity.
  - apply (update_noop_or_refresh Sample.three "new_ui" "dev"
             (Schemas.mkFeatureFlagUpdate (Some false) (Some 50)) 99
             (mkFeatureFlag 1%N "new_ui" "dev" true 100 10)).
    + reflexivity.
    + intros [[H | H] _]; discriminate.
Defined.

(** C8.  An update never changes a flag's id, name or environment: for every
    existing flag and every payload, the record that the update returns, which
    is the record then stored under the pair, has the id, name and environment
    of the flag before; and on a table that satisfies its constraints the ids
    and pairs of all rows are what they were. *)
Theorem update_keeps_identity (db db' : Session) (n e : string)
    (flag_data : Schemas.FeatureFlagUpdate) (now : datetime)
    (flag flag' : FeatureFlag) :
  Crud.get_flag db n e = Some flag ->
  Crud.update_flag db n e flag_data now = (Some flag', db') ->
  id flag' = id flag /\
  name flag' = name flag /\
  environment flag' = environment flag /\
  Crud.get_flag db' n e = Some flag' /\
  (constraints_hold db -> map id db' = map id db /\ map pair db' = map pair db).
Proof.
  intros Hget Hupd.
  destruct (update_flag_found db n e flag_data now flag Hget)
    as [[_ Hsame] | [_ Hdiff]].
  - rewrite Hsame in Hupd. inversion Hupd; subst flag' db'. tauto.
  - cbn in Hdiff. rewrite Hdiff in Hupd. inversion Hupd; subst flag' db'. clear Hupd.
    cbn. repeat split.
    + apply get_flag_Some in Hget as Hflag. destruct Hflag as [_ [Hn He]].
      apply get_flag_update_row; assumption.
    + apply update_row_keeps_keys; try reflexivity; [apply H |].
      apply get_flag_Some in Hget. apply Hget.
    + apply update_row_keeps_keys; try reflexivity; [apply H |].
      apply get_flag_Some in Hget. apply Hget.
Qed.

Lemma update_keeps_identity_witness :
  let flag' := mkFeatureFlag 1%N "new_ui" "dev" false 50 99 in
  id flag' = 1%N /\ name flag' = "new_ui" /\ environment flag' = "dev" /\
  Crud.get_flag (update_row Sample.three 1%N flag') "new_ui" "dev" = Some flag'.
Proof.
  cbv zeta.
  pose proof (update_keeps_identity Sample.three
                (update_row Sample.three 1%N (mkFeatureFlag 1%N "new_ui" "dev" false 50 99))
                "new_ui" "dev" (Schemas.mkFeatureFlagUpdate (Some false) (Some 50)) 99
                (mkFeatureFlag 1%N "new_ui" "dev" true 100 10)
                (mkFeatureFlag 1%N "new_ui" "dev" false 50 99)
                eq_refl eq_refl) as [Hid [Hn [He [Hget _]]]].
  repeat split; assumption.
Defined.

(** ** Validation *)

Section Validation.
Import Schemas.

Lemma bounded_int_ok (field : string) (lo hi v : Z) :
  lo <= v <= hi -> bounded_int field lo hi v = Ok v.
Proof.
  intros [Hlo Hhi]. unfold bounded_int.
  destruct (v <? lo) eqn:H1; [apply Z.ltb_lt in H1; lia |].
  destruct (hi <? v) eqn:H2; [apply Z.ltb_lt in H2; lia |].
  reflexivity.
Qed.

Lemma bounded_int_out (field : string) (lo hi v : Z) :
  v < lo \/ hi < v -> exists m, bounded_int field lo hi v = Raise [mkFieldError field m].
Proof.
  intros H. unfold bounded_int.
  destruct (v <? lo) eqn:H1; [eexists; reflexivity |].
  destruct (hi <? v) eqn:H2; [eexists; reflexivity |].
  apply Z.ltb_ge in H1, H2. lia.
Qed.

Lemma length_lower (s : string) : String.length (Py.lower s) = String.length s.
Proof. induction s as [| c s IH]; cbn; [reflexivity | rewrite IH; reflexivity]. Qed.

(** The validator's own test is the case-insensitive match. *)
Lemma matches_allowed_iff (v : string) :
  Client.matches_allowed v <-> Py.str_in (Py.lower v) allowed = true.
Proof.
  rewrite str_in_In. unfold Client.matches_allowed, allowed. split.
  - intros [a [Hin Heq]]. rewrite Heq. cbn in Hin.
    repeat (destruct Hin as [<- | Hin]; [vm_compute; auto 10 |]). contradiction.
  - intros Hin. cbn in Hin.
    repeat (destruct Hin as [Heq | Hin];
            [match type of Heq with ?a = _ => exists a end;
             split; [cbn; auto 10 | rewrite <- Heq; reflexivity] |]).
    contradiction.
Qed.

Lemma field_environment_matching (v : string) :
  Client.matches_allowed v -> field_environment (Some v) = Ok (Py.lower v).
Proof.
  intros H. apply matches_allowed_iff in H.
  assert (Hlen : (3 <= String.length v <= 11)%nat).
  { rewrite <- length_lower. apply str_in_In in H. cbn in H.
    repeat (destruct H as [<- | H]; [cbn; lia |]). contradiction. }
  unfold field_environment, required_str.
  destruct (String.length v <? 1)%nat eqn:H1; [apply Nat.ltb_lt in H1; lia |].
  destruct (50 <? String.length v)%nat eqn:H2; [apply Nat.ltb_lt in H2; lia |].
  unfold validate_environment. rewrite H. reflexivity.
Qed.

Lemma field_environment_unlisted (v : string) :
  ~ Client.matches_allowed v ->
  exists m, field_environment (Some v) = Raise [mkFieldError "environment" m].
Proof.
  intros H. rewrite matches_allowed_iff in H.
  unfold field_environment, required_str.
  destruct (String.length v <? 1)%nat; [eexists; reflexivity |].
  destruct (50 <? String.length v)%nat; [eexists; reflexivity |].
  unfold validate_environment.
  destruct (Py.str_in (Py.lower v) allowed); [congruence |].
  eexists. reflexivity.
Qed.

(** A failing field makes the whole body fail, with that field's error. *)
Lemma parse_create_environment_error (b : CreateBody) (err : FieldError) :
  field_environment (body_environment b) = Raise [err] ->
  exists errs, parse_FeatureFlagCreate b = Raise errs /\ In err errs.
Proof.
  intros H. unfold parse_FeatureFlagCreate. rewrite H.
  destruct (field_name (body_name b)); destruct (field_enabled (body_enabled b));
    destruct (field_rollout (body_rollout b));
    eexists; (split; [reflexivity |]); cbn; rewrite ?in_app_iff; cbn; tauto.
Qed.

Lemma parse_create_rollout_error (b : CreateBody) (err : FieldError) :
  field_rollout (body_rollout b) = Raise [err] ->
  exists errs, parse_FeatureFlagCreate b = Raise errs /\ In err errs.
Proof.
  intros H. unfold parse_FeatureFlagCreate. rewrite H.
  destruct (field_name (body_name b)); destruct (field_enabled (body_enabled b));
    destruct (field_environment (body_environment b));
    eexists; (split; [reflexivity |]); cbn; rewrite ?in_app_iff; cbn;
    rewrite ?in_app_iff; cbn; tauto.
Qed.

Lemma parse_create_ok (b : CreateBody) (n e : string) (r : Z) :
  field_name (body_name b) = Ok n ->
  field_environment (body_environment b) = Ok e ->
  field_rollout (body_rollout b) = Ok r ->
  parse_FeatureFlagCreate b =
  Ok (mkFeatureFlagCreate n e (Client.supplied (body_enabled b) false) r).
Proof.
  intros Hn He Hr. unfold parse_FeatureFlagCreate. rewrite Hn, He, Hr.
  destruct (body_enabled b); reflexivity.
Qed.

Lemma parse_create_environment (b : CreateBody) (v : string)
    (flag_data : FeatureFlagCreate) :
  body_environment b = Some v ->
  parse_FeatureFlagCreate b = Ok flag_data ->
  field_environment (Some v) = Ok (c_environment flag_data).
Proof.
  intros Hv. unfold parse_FeatureFlagCreate. rewrite Hv.
  destruct (field_name (body_name b)); destruct (field_environment (Some v));
    destruct (field_enabled (body_enabled b));
    destruct (field_rollout (body_rollout b)); intros H; inversion H; reflexivity.
Qed.
End Validation.

(** C7.  On create, a rollout below 0 or above 100 fails validation with an
    error on the field rollout, and a rollout within [0, 100] is accepted
    when name and environment are valid; an omitted enabled becomes false and
    an omitted rollout becomes 100.  On update, a supplied rollout outside
    [0, 100] fails validation and one inside, like an omitted one, is
    accepted.  Behind a valid key, a body that fails validation is answered
    with the validation errors and no store function is called. *)
Theorem rollout_bounds_and_defaults :
  (forall b v,
     Schemas.body_rollout b = Some v -> v < 0 \/ 100 < v ->
     exists errs m,
       Schemas.parse_FeatureFlagCreate b = Raise errs /\
       In (Schemas.mkFieldError "rollout" m) errs) /\
  (forall b n e,
     Schemas.field_name (Schemas.body_name b) = Ok n ->
     Schemas.field_environment (Schemas.body_environment b) = Ok e ->
     (forall v, Schemas.body_rollout b = Some v -> 0 <= v <= 100 ->
        Schemas.parse_FeatureFlagCreate b =
        Ok (Schemas.mkFeatureFlagCreate n e
              (Client.supplied (Schemas.body_enabled b) false) v)) /\
     (Schemas.body_rollout b = None ->
        Schemas.parse_FeatureFlagCreate b =
        Ok (Schemas.mkFeatureFlagCreate n e
              (Client.supplied (Schemas.body_enabled b) false) 100))) /\
  (forall u v,
     Schemas.u_rollout u = Some v ->
     (v < 0 \/ 100 < v -> exists errs, Schemas.parse_FeatureFlagUpdate u = Raise errs) /\
     (0 <= v <= 100 -> Schemas.parse_FeatureFlagUpdate u = Ok u)) /\
  (forall u, Schemas.u_rollout u = None -> Schemas.parse_FeatureFlagUpdate u = Ok u) /\
  (forall w header k db,
     Auth.verify_api_key (Main.settings w) (Auth.API_KEY_HEADER header) = Ok k ->
     (forall b errs,
        Schemas.parse_FeatureFlagCreate b = Raise errs ->
        Main.handle w header (Main.POST_flags b) db =
        Main.mkReply (Main.Unprocessable errs) db []) /\
     (forall n e u errs,
        Schemas.parse_FeatureFlagUpdate u = Raise errs ->
        Main.handle w header (Main.PUT_flag n (Some e) u) db =
        Main.mkReply (Main.Unprocessable errs) db [])).
Proof.
  split; [| split; [| split; [| split]]].
  - intros b v Hv Hout.
    destruct (bounded_int_out "rollout" 0 100 v Hout) as [m Hm].
    destruct (parse_create_rollout_error b (Schemas.mkFieldError "rollout" m))
      as [errs [Hparse Hin]].
    + unfold Schemas.field_rollout. rewrite Hv. exact Hm.
    + exists errs, m. split; assumption.
  - intros b n e Hn He. split.
    + intros v Hv Hin. apply parse_create_ok; try assumption.
      unfold Schemas.field_rollout. rewrite Hv. apply bounded_int_ok. exact Hin.
    + intros Hnone. apply parse_create_ok; try assumption.
      unfold Schemas.field_rollout. rewrite Hnone. reflexivity.
  - intros u v Hv.
    unfold Schemas.parse_FeatureFlagUpdate, Schemas.field_rollout_update.
    rewrite Hv. split.
    + intros Hout. destruct (bounded_int_out "rollout" 0 100 v Hout) as [m ->].
      eexists. reflexivity.
    + intros Hin. rewrite (bounded_int_ok "rollout" 0 100 v Hin). cbn.
      destruct (v <? 0) eqn:H1; [apply Z.ltb_lt in H1; lia |].
      destruct (100 <? v) eqn:H2; [apply Z.ltb_lt in H2; lia |].
      cbn. destruct u as [en r]. cbn in *. subst r. reflexivity.
  - intros u Hnone. unfold Schemas.parse_FeatureFlagUpdate, Schemas.field_rollout_update.
    rewrite Hnone. destruct u as [en r]. cbn in *. subst r. reflexivity.
  - intros w header k db Hkey. split.
    + intros b errs Hparse. rewrite (create_authorized w header k Hkey).
      rewrite Hparse. reflexivity.
    + intros n e u errs Hparse. rewrite (update_authorized w header k Hkey).
      rewrite Hparse. reflexivity.
Qed.

Lemma rollout_bounds_and_defaults_witness :
  let body r := Schemas.mkCreateBody (Some "new_ui") (Some "dev") None r in
  (exists errs, Schemas.parse_FeatureFlagCreate (body (Some (-1))) = Raise errs) /\
  (exists errs, Schemas.parse_FeatureFlagCreate (body (Some 101)) = Raise errs) /\
  Schemas.parse_FeatureFlagCreate (body (Some 0))
    = Ok (Schemas.mkFeatureFlagCreate "new_ui" "dev" false 0) /\
  Schemas.parse_FeatureFlagCreate (body (Some 100))
    = Ok (Schemas.mkFeatureFlagCreate "new_ui" "dev" false 100) /\
  Schemas.parse_FeatureFlagCreate (body None)
    = Ok (Schemas.mkFeatureFlagCreate "new_ui" "dev" false 100) /\
  (exists errs, Schemas.parse_FeatureFlagUpdate
                  (Schemas.mkFeatureFlagUpdate None (Some 101)) = Raise errs) /\
  Schemas.parse_FeatureFlagUpdate (Schemas.mkFeatureFlagUpdate None (Some 100))
    = Ok (Schemas.mkFeatureFlagUpdate None (Some 100)).
Proof.
  cbv zeta.
  destruct rollout_bounds_and_defaults as [Hout [Hin [Hupd _]]].
  repeat apply conj.
  - assert (Hlow : -1 < 0 \/ 100 < -1) by lia.
    destruct (Hout (Schemas.mkCreateBody (Some "new_ui") (Some "dev") None (Some (-1)))
                (-1) eq_refl Hlow) as [errs [m [Hparse _]]].
    exists errs. exact Hparse.
  - assert (Hhigh : 101 < 0 \/ 100 < 101) by lia.
    destruct (Hout (Schemas.mkCreateBody (Some "new_ui") (Some "dev") None (Some 101))
                101 eq_refl Hhigh) as [errs [m [Hparse _]]].
    exists errs. exact Hparse.
  - assert (Hzero : 0 <= 0 <= 100) by lia.
    exact (proj1 (Hin (Schemas.mkCreateBody (Some "new_ui") (Some "dev") None (Some 0))
                    "new_ui" "dev" eq_refl eq_refl) 0 eq_refl Hzero).
  - assert (Hfull : 0 <= 100 <= 100) by lia.
    exact (proj1 (Hin (Schemas.mkCreateBody (Some "new_ui") (Some "dev") None (Some 100))
                    "new_ui" "dev" eq_refl eq_refl) 100 eq_refl Hfull).
  - exact (proj2 (Hin (Schemas.mkCreateBody (Some "new_ui") (Some "dev") None None)
                    "new_ui" "dev" eq_refl eq_refl) eq_refl).
  - assert (Hhigh : 101 < 0 \/ 100 < 101) by lia.
    exact (proj1 (Hupd (Schemas.mkFeatureFlagUpdate None (Some 101)) 101 eq_refl) Hhigh).
  - assert (Hfull : 0 <= 100 <= 100) by lia.
    exact (proj2 (Hupd (Schemas.mkFeatureFlagUpdate None (Some 100)) 100 eq_refl) Hfull).
Defined.

(** ** The environment parameter *)

(** C2.  The code at the failing input.  Behind a valid key a create request
    with the environment [PROD] is accepted and stores the flag under [prod];
    on the session it leaves, the fetch with [prod] returns the flag, but the
    fetch, the update and the delete with [PROD] hand [PROD] to the store as
    given and are answered not-found.  A fetch with [qa], which matches no
    allowed value, is answered not-found after a call of [get_flag], not with
    a validation failure.  The create path validates and lowercases the
    environment; the three routes with a query parameter do neither. *)
Theorem fetch_environment_unchecked :
  let flag := mkFeatureFlag 7%N "beta" "prod" false 100 1000 in
  let db' := Sample.three ++ [flag] in
  Client.matches_allowed "PROD" /\
  Main.handle Sample.world Sample.key
    (Main.POST_flags (Schemas.mkCreateBody (Some "beta") (Some "PROD") None None))
    Sample.three
  = Main.mkReply (Main.Created flag) db' [Main.call_create_flag] /\
  Main.handle Sample.world Sample.key (Main.GET_flag "beta" (Some "prod")) db'
  = Main.mkReply (Main.Flag flag) db' [Main.call_get_flag] /\
  Main.handle Sample.world Sample.key (Main.GET_flag "beta" (Some "PROD")) db'
  = Main.mkReply (Main.Failed (FlagNotFoundError "beta" "PROD")) db'
      [Main.call_get_flag] /\
  Main.handle Sample.world Sample.key
    (Main.PUT_flag "beta" (Some "PROD") (Schemas.mkFeatureFlagUpdate (Some true) None)) db'
  = Main.mkReply (Main.Failed (FlagNotFoundError "beta" "PROD")) db'
      [Main.call_update_flag] /\
  Main.handle Sample.world Sample.key (Main.DELETE_flag "beta" (Some "PROD")) db'
  = Main.mkReply (Main.Failed (FlagNotFoundError "beta" "PROD")) db'
      [Main.call_delete_flag] /\
  ~ Client.matches_allowed "qa" /\
  Main.handle Sample.world Sample.key (Main.GET_flag "new_ui" (Some "qa")) Sample.three
  = Main.mkReply (Main.Failed (FlagNotFoundError "new_ui" "qa")) Sample.three
      [Main.call_get_flag].
Proof.
  cbv zeta. repeat apply conj; try reflexivity.
  - rewrite matches_allowed_iff. reflexivity.
  - rewrite matches_allowed_iff. vm_compute. discriminate.
Qed.

(** How the environment travels behind a valid key.  On create, a value that
    matches no allowed value when case is ignored is a validation failure on
    the field environment, answered without any store call, and a matching
    one reaches [create_flag] in lowercase.  On fetch, update and delete the
    value of the query parameter reaches [get_flag], [update_flag] and
    [delete_flag] as it was given. *)
Lemma environment_checked_on_create_only
    (w : Main.World) (header : option string) (k : string) (db : Session) :
  Auth.verify_api_key (Main.settings w) (Auth.API_KEY_HEADER header) = Ok k ->
  (forall body v,
     Schemas.body_environment body = Some v ->
     (~ Client.matches_allowed v ->
      exists errs m,
        Main.handle w header (Main.POST_flags body) db
        = Main.mkReply (Main.Unprocessable errs) db [] /\
        In (Schemas.mkFieldError "environment" m) errs) /\
     (Client.matches_allowed v ->
      Schemas.field_environment (Some v) = Ok (Py.lower v) /\
      forall flag_data,
        Schemas.parse_FeatureFlagCreate body = Ok flag_data ->
        Schemas.c_environment flag_data = Py.lower v /\
        Main.handle w header (Main.POST_flags body) db =
        match Crud.create_flag db flag_data (Main.uuid4 w) (Main.now w) with
        | (Ok flag, db') => Main.mkReply (Main.Created flag) db' [Main.call_create_flag]
        | (Raise e, db') => Main.mkReply (Main.Failed e) db' [Main.call_create_flag]
        end)) /\
  (forall n e,
     Main.handle w header (Main.GET_flag n (Some e)) db =
     match Crud.get_flag db n e with
     | None => Main.mkReply (Main.Failed (FlagNotFoundError n e)) db [Main.call_get_flag]
     | Some flag => Main.mkReply (Main.Flag flag) db [Main.call_get_flag]
     end) /\
  (forall n e body flag_data,
     Schemas.parse_FeatureFlagUpdate body = Ok flag_data ->
     Main.handle w header (Main.PUT_flag n (Some e) body) db =
     match Crud.update_flag db n e flag_data (Main.now w) with
     | (None, db') =>
         Main.mkReply (Main.Failed (FlagNotFoundError n e)) db' [Main.call_update_flag]
     | (Some flag, db') => Main.mkReply (Main.Flag flag) db' [Main.call_update_flag]
     end) /\
  (forall n e,
     Main.handle w header (Main.DELETE_flag n (Some e)) db =
     match Crud.delete_flag db n e with
     | (false, db') =>
         Main.mkReply (Main.Failed (FlagNotFoundError n e)) db' [Main.call_delete_flag]
     | (true, db') => Main.mkReply Main.NoContent db' [Main.call_delete_flag]
     end) /\
  (forall n e body flag_data,
     Crud.get_flag db n e = None ->
     Schemas.parse_FeatureFlagUpdate body = Ok flag_data ->
     Main.response (Main.handle w header (Main.GET_flag n (Some e)) db)
       = Main.Failed (FlagNotFoundError n e) /\
     Main.response (Main.handle w header (Main.PUT_flag n (Some e) body) db)
       = Main.Failed (FlagNotFoundError n e) /\
     Main.response (Main.handle w header (Main.DELETE_flag n (Some e)) db)
       = Main.Failed (FlagNotFoundError n e)).
Proof.
  intros Hkey. split; [| split; [| split; [| split]]].
  - intros body v Hv. split.
    + intros Hno. destruct (field_environment_unlisted v Hno) as [m Hm].
      destruct (parse_create_environment_error body (Schemas.mkFieldError "environment" m))
        as [errs [Hparse Hin]]; [rewrite Hv; exact Hm |].
      exists errs, m. split; [| exact Hin].
      rewrite (create_authorized w header k Hkey), Hparse. reflexivity.
    + intros Hyes. pose proof (field_environment_matching v Hyes) as Hfield.
      split; [exact Hfield |].
      intros flag_data Hparse. split.
      * pose proof (parse_create_environment body v flag_data Hv Hparse) as H.
        rewrite Hfield in H. inversion H. reflexivity.
      * rewrite (create_authorized w header k Hkey), Hparse. reflexivity.
  - intros n e. apply (fetch_authorized w header k Hkey).
  - intros n e body flag_data Hparse.
    rewrite (update_authorized w header k Hkey), Hparse. reflexivity.
  - intros n e. apply (delete_authorized w header k Hkey).
  - intros n e body flag_data Hnone Hparse. repeat split.
    + rewrite (fetch_authorized w header k Hkey), Hnone. reflexivity.
    + rewrite (update_authorized w header k Hkey), Hparse.
      rewrite (update_flag_absent db n e flag_data (Main.now w) Hnone). reflexivity.
    + rewrite (delete_authorized w header k Hkey).
      unfold Crud.delete_flag. rewrite Hnone. reflexivity.
Qed.

Lemma environment_checked_on_create_only_witness :
  (exists errs m,
     Main.handle Sample.world Sample.key
       (Main.POST_flags (Schemas.mkCreateBody (Some "beta") (Some "qa") None None))
       Sample.three
     = Main.mkReply (Main.Unprocessable errs) Sample.three [] /\
     In (Schemas.mkFieldError "environment" m) errs) /\
  Schemas.field_environment (Some "PROD") = Ok "prod" /\
  Main.response
    (Main.handle Sample.world Sample.key (Main.DELETE_flag "new_ui" (Some "qa"))
       Sample.three)
  = Main.Failed (FlagNotFoundError "new_ui" "qa").
Proof.
  destruct (environment_checked_on_create_only Sample.world Sample.key
              "dev-api-key-12345" Sample.three eq_refl)
    as [Hcreate [_ [_ [_ Hmiss]]]].
  assert (Hqa : ~ Client.matches_allowed "qa").
  { rewrite matches_allowed_iff. vm_compute. discriminate. }
  assert (Hprod : Client.matches_allowed "PROD").
  { rewrite matches_allowed_iff. reflexivity. }
  split; [| split].
  - exact (proj1 (Hcreate (Schemas.mkCreateBody (Some "beta") (Some "qa") None None)
                    "qa" eq_refl) Hqa).
  - exact (proj1 (proj2 (Hcreate (Schemas.mkCreateBody (Some "beta") (Some "PROD") None None)
                           "PROD" eq_refl) Hprod)).
  - exact (proj2 (proj2 (Hmiss "new_ui" "qa" (Schemas.mkFeatureFlagUpdate None None)
                           (Schemas.mkFeatureFlagUpdate None None) eq_refl eq_refl))).
Defined.

(** ** The API key *)

Lemma API_KEY_HEADER_truthy (header : option string) (k : string) :
  Auth.API_KEY_HEADER header = Some k -> Py.truthy k = true.
Proof.
  destruct header as [h |]; cbn; [| discriminate].
  destruct (Py.truthy h) eqn:Hh; [| discriminate].
  intros H. inversion H; subst. exact Hh.
Qed.

(** No configured key is empty, so an empty header could not be a valid
    credential. *)
Lemma api_keys_nonempty (s : Auth.Settings) (k : string) :
  In k (Auth.get_api_keys s) -> k <> "".
Proof.
  unfold Auth.get_api_keys.
  destruct (Py.truthy (Auth.API_KEYS s)).
  - intros Hin. apply in_map_iff in Hin. destruct Hin as [key [<- Hin]].
    apply filter_In in Hin. destruct Hin as [_ Htruthy].
    unfold Py.truthy in Htruthy. apply negb_true_iff in Htruthy.
    apply String.eqb_neq. exact Htruthy.
  - intros [<- | []]. discriminate.
Qed.

(** An empty header is no credential. *)
Lemma API_KEY_HEADER_None (header : option string) :
  Auth.API_KEY_HEADER header = None <-> header = None \/ header = Some "".
Proof.
  destruct header as [h |]; cbn; [| tauto].
  unfold Py.truthy. destruct (String.eqb h "") eqn:Hh; cbn.
  - apply String.eqb_eq in Hh. subst. tauto.
  - apply String.eqb_neq in Hh. split; [discriminate |].
    intros [H | H]; congruence.
Qed.



Lemma verify_api_key_valid (s : Auth.Settings) (header : option string) (k : string) :
  Auth.API_KEY_HEADER header = Some k -> In k (Auth.get_api_keys s) ->
  Auth.verify_api_key s (Auth.API_KEY_HEADER header) = Ok k.
Proof.
  intros Hk Hin. rewrite Hk. unfold Auth.verify_api_key.
  rewrite (API_KEY_HEADER_truthy header k Hk). cbn.
  apply str_in_In in Hin. rewrite Hin. reflexivity.
Qed.





(** * Further properties of the store and the endpoints *)

(** ** Pages *)

Lemma In_firstn {A : Type} (n : nat) (l : list A) (x : A) :
  In x (firstn n l) -> In x l.
Proof.
  intros H. rewrite <- (firstn_skipn n l). apply in_or_app. left. exact H.
Qed.

Lemma In_skipn {A : Type} (n : nat) (l : list A) (x : A) :
  In x (skipn n l) -> In x l.
Proof.
  intros H. rewrite <- (firstn_skipn n l). apply in_or_app. right. exact H.
Qed.

(** X1.  A page holds exactly the records that remain after the offset, up
    to the limit: its length is the smaller of [limit] and the count for the
    filter less [skip]. *)
Theorem list_flags_length (db : Session) (env : option string) (skip limit : nat) :
  List.length (Crud.list_flags db env skip limit)
  = Nat.min limit (Crud.count_flags db env - skip).
Proof.
  unfold Crud.list_flags, Crud.count_flags.
  rewrite length_firstn, length_skipn. reflexivity.
Qed.

(** X2.  With a non-empty environment filter, every record on every page is
    a row of the table in that environment, and every row of the table in
    that environment is on the one-record page at some offset. *)
Theorem list_flags_environment (db : Session) (e : string) :
  e <> "" ->
  (forall skip limit f,
     In f (Crud.list_flags db (Some e) skip limit) ->
     In f db /\ environment f = e) /\
  (forall f, In f db -> environment f = e ->
             exists skip, Crud.list_flags db (Some e) skip 1 = [f]).
Proof.
  intros He.
  assert (Hq : Crud.query db (Some e) = filter (in_environment e) db).
  { cbn. unfold Py.truthy. apply String.eqb_neq in He. rewrite He. reflexivity. }
  split.
  - intros skip limit f Hin. unfold Crud.list_flags in Hin. rewrite Hq in Hin.
    apply In_firstn, In_skipn in Hin. apply filter_In in Hin.
    destruct Hin as [Hin Henv]. split; [exact Hin |].
    apply String.eqb_eq. exact Henv.
  - intros f Hin Henv.
    assert (Hf : In f (filter (in_environment e) db)).
    { apply filter_In. split; [exact Hin |]. apply String.eqb_eq. exact Henv. }
    apply in_split in Hf. destruct Hf as [l1 [l2 Hsplit]].
    exists (List.length l1). unfold Crud.list_flags. rewrite Hq, Hsplit.
    rewrite skipn_app, skipn_all, Nat.sub_diag. reflexivity.
Qed.

Lemma list_flags_environment_witness :
  Crud.list_flags Sample.three (Some "dev") 1 1
  = [mkFeatureFlag 3%N "search" "dev" false 0 30] /\
  (forall f, In f (Crud.list_flags Sample.three (Some "dev") 0 5) ->
             In f Sample.three /\ environment f = "dev").
Proof.
  assert (Hdev : "dev" <> "") by discriminate.
  split; [reflexivity |].
  intros f. apply (proj1 (list_flags_environment Sample.three "dev" Hdev) 0%nat 5%nat f).
Defined.

(** X3.  Consecutive pages join: the page of [a] records at [skip] followed
    by the page of [b] records at [skip + a] is the page of [a + b] records
    at [skip]. *)
Theorem list_flags_consecutive (db : Session) (env : option string) (skip a b : nat) :
  Crud.list_flags db env skip a ++ Crud.list_flags db env (skip + a) b
  = Crud.list_flags db env skip (a + b).
Proof.
  unfold Crud.list_flags.
  rewrite (Nat.add_comm skip a), <- skipn_skipn.
  generalize (skipn skip (Crud.query db env)). clear.
  induction a as [| a IH]; intros l; cbn; [reflexivity |].
  destruct l as [| x l]; cbn.
  - rewrite firstn_nil. reflexivity.
  - rewrite IH. reflexivity.
Qed.

(** ** Lookups on a table that satisfies its constraints *)

Lemma find_the_one {A : Type} (p : A -> bool) (l : list A) (f : A) :
  In f l -> p f = true -> (forall g, In g l -> p g = true -> g = f) ->
  find p l = Some f.
Proof.
  intros Hin Hp Huniq. destruct (find p l) as [g |] eqn:Hfind.
  - apply find_some in Hfind. destruct Hfind as [Hg Hpg].
    rewrite (Huniq g Hg Hpg). reflexivity.
  - pose proof (find_none p l Hfind f Hin). congruence.
Qed.

(** X4.  On a table that satisfies its constraints, [get_flag] returns a
    record exactly when that record is a row with the requested name and
    environment. *)
Theorem get_flag_exact (db : Session) (n e : string) (f : FeatureFlag) :
  constraints_hold db ->
  (Crud.get_flag db n e = Some f <-> In f db /\ name f = n /\ environment f = e).
Proof.
  intros [_ Hpairs]. split; [apply get_flag_Some |].
  intros [Hin [Hn He]]. apply find_the_one.
  - exact Hin.
  - apply has_pair_true. tauto.
  - intros g Hg Hp. apply has_pair_true in Hp. destruct Hp as [Hgn Hge].
    apply (unique_key pair db g f Hpairs Hg Hin). unfold pair. congruence.
Qed.

Lemma get_flag_exact_witness :
  Crud.get_flag Sample.three "search" "dev"
  = Some (mkFeatureFlag 3%N "search" "dev" false 0 30).
Proof.
  apply (get_flag_exact Sample.three "search" "dev"
           (mkFeatureFlag 3%N "search" "dev" false 0 30)).
  - apply (after_constraints
             [Client.W_create Sample.new_ui 1%N 10;
              Client.W_create Sample.new_ui_prod 2%N 20;
              Client.W_create Sample.search 3%N 30]).
  - repeat split. cbn. auto 10.
Defined.

(** X5.  On a table that satisfies its constraints, [get_flag_by_id] returns
    a record exactly when that record is a row with the requested id, and
    the record that [get_flag] finds for a pair is the one that
    [get_flag_by_id] finds for its id. *)
Theorem get_flag_by_id_exact (db : Session) :
  constraints_hold db ->
  (forall i f, Crud.get_flag_by_id db i = Some f <-> In f db /\ id f = i) /\
  (forall n e f, Crud.get_flag db n e = Some f ->
                 Crud.get_flag_by_id db (id f) = Some f).
Proof.
  intros [Hids _].
  assert (Hexact : forall i f, In f db -> id f = i -> Crud.get_flag_by_id db i = Some f).
  { intros i f Hin Hid. apply find_the_one.
    - exact Hin.
    - apply has_id_true. exact Hid.
    - intros g Hg Hp. apply has_id_true in Hp.
      apply (unique_key id db g f Hids Hg Hin). congruence. }
  split.
  - intros i f. split.
    + intros H. apply find_some in H. destruct H as [Hin Hp].
      apply has_id_true in Hp. tauto.
    + intros [Hin Hid]. apply Hexact; assumption.
  - intros n e f Hget. apply get_flag_Some in Hget.
    apply Hexact; [apply Hget | reflexivity].
Qed.

Lemma get_flag_by_id_exact_witness :
  Crud.get_flag_by_id Sample.three 2%N
  = Some (mkFeatureFlag 2%N "new_ui" "prod" false 25 20).
Proof.
  assert (Hok : constraints_hold Sample.three).
  { apply (after_constraints
             [Client.W_create Sample.new_ui 1%N 10;
              Client.W_create Sample.new_ui_prod 2%N 20;
              Client.W_create Sample.search 3%N 30]). }
  apply (proj2 (get_flag_by_id_exact Sample.three Hok) "new_ui" "prod"
           (mkFeatureFlag 2%N "new_ui" "prod" false 25 20)).
  reflexivity.
Defined.

(** ** How the writes compose *)

(** What a successful [create_flag] tells about the session before. *)
Lemma create_flag_ok_inv (db db' : Session) (flag_data : Schemas.FeatureFlagCreate)
    (new_id : UUID) (now : datetime) (flag : FeatureFlag) :
  Crud.create_flag db flag_data new_id now = (Ok flag, db') ->
  flag = mkFeatureFlag new_id (Schemas.c_name flag_data)
           (Schemas.c_environment flag_data) (Schemas.c_enabled flag_data)
           (Schemas.c_rollout flag_data) now /\
  db' = db ++ [flag] /\
  Crud.get_flag db (Schemas.c_name flag_data) (Schemas.c_environment flag_data) = None /\
  existsb (has_id new_id) db = false.
Proof.
  intros Hcreate.
  destruct (create_flag_cases db flag_data new_id now)
    as [[e He] | [flag0 [db0 [H0 [Hins [Hfree Hflag]]]]]]; [congruence |].
  rewrite H0 in Hcreate. injection Hcreate as Hf Hd.
  rewrite <- Hf, <- Hd. clear Hf Hd flag db'.
  unfold insert_row in Hins. rewrite Hflag in Hins. cbn in Hins.
  destruct (existsb (has_id new_id) db); [discriminate |].
  destruct (existsb (has_pair _ _) db); [discriminate |].
  injection Hins as Hdb0. rewrite <- Hflag in Hdb0. repeat split; congruence.
Qed.

Lemma filter_all {A : Type} (p : A -> bool) (l : list A) :
  (forall x, In x l -> p x = true) -> filter p l = l.
Proof.
  induction l as [| a l IH]; cbn; intros H; [reflexivity |].
  rewrite (H a (or_introl eq_refl)), IH; [reflexivity |].
  intros x Hx. apply H. right. exact Hx.
Qed.

(** X6.  Repeating an update changes nothing more: whatever an update
    returned, the same update on the session it left returns the same record
    and leaves that session as it is, at whatever time it is made. *)
Theorem update_flag_twice (db db' : Session) (n e : string)
    (flag_data : Schemas.FeatureFlagUpdate) (now later : datetime)
    (result : option FeatureFlag) :
  Crud.update_flag db n e flag_data now = (result, db') ->
  Crud.update_flag db' n e flag_data later = (result, db').
Proof.
  intros Hupd. destruct (Crud.get_flag db n e) as [flag |] eqn:Hget.
  - destruct (update_flag_found db n e flag_data now flag Hget)
      as [[Hsame Hfirst] | [Hdiff Hfirst]].
    + rewrite Hfirst in Hupd. inversion Hupd; subst result db'.
      destruct (update_flag_found db n e flag_data later flag Hget)
        as [[_ Hsecond] | [Hcontra _]]; [exact Hsecond | contradiction].
    + cbn in Hfirst. rewrite Hfirst in Hupd. inversion Hupd; subst result db'.
      clear Hupd.
      apply get_flag_Some in Hget as Hflag. destruct Hflag as [_ [Hn He]].
      match goal with |- context [update_row db (id flag) ?f] => set (flag' := f) end.
      assert (Hget' : Crud.get_flag (update_row db (id flag) flag') n e = Some flag')
        by (apply get_flag_update_row; assumption).
      assert (Hsame : Client.changes_nothing flag_data flag').
      { unfold Client.changes_nothing, flag'. cbn.
        destruct (Schemas.u_enabled flag_data), (Schemas.u_rollout flag_data);
          cbn; tauto. }
      destruct (update_flag_found _ n e flag_data later flag' Hget')
        as [[_ Hsecond] | [Hcontra _]]; [exact Hsecond | contradiction].
  - rewrite (update_flag_absent db n e flag_data now Hget) in Hupd.
    inversion Hupd; subst result db'.
    apply update_flag_absent. exact Hget.
Qed.

Lemma update_flag_twice_witness :
  let flag' := mkFeatureFlag 1%N "new_ui" "dev" false 50 99 in
  Crud.update_flag (update_row Sample.three 1%N flag') "new_ui" "dev"
    (Schemas.mkFeatureFlagUpdate (Some false) (Some 50)) 200
  = (Some flag', update_row Sample.three 1%N flag').
Proof.
  cbv zeta.
  apply (update_flag_twice Sample.three _ "new_ui" "dev"
           (Schemas.mkFeatureFlagUpdate (Some false) (Some 50)) 99 200).
  reflexivity.
Defined.

(** X7.  Deleting a flag right after its creation gives back the session
    from before the creation. *)
Theorem create_then_delete (db db' : Session) (flag_data : Schemas.FeatureFlagCreate)
    (new_id : UUID) (now : datetime) (flag : FeatureFlag) :
  Crud.create_flag db flag_data new_id now = (Ok flag, db') ->
  Crud.delete_flag db' (Schemas.c_name flag_data) (Schemas.c_environment flag_data)
  = (true, db).
Proof.
  intros Hcreate.
  destruct (create_flag_ok_inv db db' flag_data new_id now flag Hcreate)
    as [Hflag [Hdb' [Hfree Hfresh]]].
  subst db'. unfold Crud.delete_flag. rewrite get_flag_snoc, Hfree.
  assert (Hp : has_pair (Schemas.c_name flag_data) (Schemas.c_environment flag_data) flag
               = true).
  { apply has_pair_true. rewrite Hflag. split; reflexivity. }
  rewrite Hp. unfold delete_row. rewrite filter_app. cbn.
  assert (Hid : has_id (id flag) flag = true) by (apply has_id_true; reflexivity).
  rewrite Hid. cbn. rewrite app_nil_r. f_equal.
  apply filter_all. intros g Hg. apply negb_true_iff.
  replace (id flag) with new_id by (rewrite Hflag; reflexivity).
  apply (existsb_false_forall _ _ Hfresh g Hg).
Qed.

Lemma create_then_delete_witness :
  Crud.delete_flag
    (Sample.three ++ [mkFeatureFlag 4%N "search" "prod" true 50 40]) "search" "prod"
  = (true, Sample.three).
Proof.
  apply (create_then_delete Sample.three _
           (Schemas.mkFeatureFlagCreate "search" "prod" true 50) 4%N 40
           (mkFeatureFlag 4%N "search" "prod" true 50 40)).
  reflexivity.
Defined.

Lemma has_pair_false (n e : string) (g : FeatureFlag) :
  pair g <> (n, e) -> has_pair n e g = false.
Proof.
  intros Hne. destruct (has_pair n e g) eqn:Hp; [| reflexivity].
  apply has_pair_true in Hp. destruct Hp as [Hn He].
  exfalso. apply Hne. unfold pair. congruence.
Qed.

Lemma get_flag_update_row_other (db : Session) (i : UUID) (f' : FeatureFlag)
    (n e : string) :
  (forall g, In g db -> has_id i g = true -> has_pair n e g = false) ->
  has_pair n e f' = false ->
  Crud.get_flag (update_row db i f') n e = Crud.get_flag db n e.
Proof.
  intros Hrows Hnew. unfold Crud.get_flag, update_row.
  induction db as [| g db IH]; cbn; [reflexivity |].
  assert (IH' : find (has_pair n e) (map (fun g0 => if has_id i g0 then f' else g0) db)
                = find (has_pair n e) db).
  { apply IH. intros x Hx. apply Hrows. right. exact Hx. }
  destruct (has_id i g) eqn:Hid.
  - rewrite Hnew, (Hrows g (or_introl eq_refl) Hid). exact IH'.
  - destruct (has_pair n e g); [reflexivity | exact IH'].
Qed.

Lemma get_flag_delete_row_other (db : Session) (i : UUID) (n e : string) :
  (forall g, In g db -> has_id i g = true -> has_pair n e g = false) ->
  Crud.get_flag (delete_row db i) n e = Crud.get_flag db n e.
Proof.
  intros Hrows. unfold Crud.get_flag, delete_row.
  induction db as [| g db IH]; cbn; [reflexivity |].
  assert (IH' : find (has_pair n e) (filter (fun g0 => negb (has_id i g0)) db)
                = find (has_pair n e) db).
  { apply IH. intros x Hx. apply Hrows. right. exact Hx. }
  destruct (has_id i g) eqn:Hid; cbn.
  - rewrite (Hrows g (or_introl eq_refl) Hid). exact IH'.
  - destruct (has_pair n e g); [reflexivity | exact IH'].
Qed.

(** On a table with unique ids the rows with the id of [flag] are [flag]. *)
Lemma rows_with_id (db : Session) (flag : FeatureFlag) (n e : string) :
  NoDup (map id db) -> In flag db -> pair flag <> (n, e) ->
  forall g, In g db -> has_id (id flag) g = true -> has_pair n e g = false.
Proof.
  intros Hids Hin Hne g Hg Hid. apply has_id_true in Hid.
  rewrite (unique_key id db g flag Hids Hg Hin Hid).
  apply has_pair_false. exact Hne.
Qed.

(** X8.  A write concerns one pair only: on a table that satisfies its
    constraints, after a create, update or delete addressed to one pair,
    [get_flag] on every other pair returns what it returned before. *)
Theorem write_leaves_other_pairs (db : Session) (w : Client.Write) (n e : string) :
  constraints_hold db ->
  Data.target w <> (n, e) ->
  Crud.get_flag (Client.apply_write db w) n e = Crud.get_flag db n e.
Proof.
  intros [Hids _] Hother. destruct w as [flag_data new_id now | n0 e0 flag_data now | n0 e0];
    cbn [Client.apply_write Data.target] in *.
  - destruct (create_flag_cases db flag_data new_id now)
      as [[err ->] | [flag [db' [Hcreate _]]]]; [reflexivity |].
    destruct (create_flag_ok_inv db db' flag_data new_id now flag Hcreate)
      as [Hflag [-> _]].
    rewrite Hcreate. cbn [snd]. rewrite get_flag_snoc.
    rewrite (has_pair_false n e flag) by (rewrite Hflag; exact Hother).
    destruct (Crud.get_flag db n e); reflexivity.
  - destruct (Crud.get_flag db n0 e0) as [flag |] eqn:Hget.
    + apply get_flag_Some in Hget as Hflag. destruct Hflag as [Hin [Hn He]].
      assert (Hne : pair flag <> (n, e)) by (unfold pair; congruence).
      destruct (update_flag_found db n0 e0 flag_data now flag Hget)
        as [[_ ->] | [_ Hupd]]; [reflexivity |].
      cbn in Hupd. rewrite Hupd. cbn.
      apply get_flag_update_row_other.
      * apply rows_with_id; assumption.
      * apply has_pair_false. exact Hne.
    + rewrite (update_flag_absent db n0 e0 flag_data now Hget). reflexivity.
  - unfold Crud.delete_flag. destruct (Crud.get_flag db n0 e0) as [flag |] eqn:Hget;
      [| reflexivity].
    cbn. apply get_flag_Some in Hget. destruct Hget as [Hin [Hn He]].
    apply get_flag_delete_row_other. apply rows_with_id; try assumption.
    unfold pair. congruence.
Qed.

Lemma write_leaves_other_pairs_witness :
  Crud.get_flag (Client.apply_write Sample.three (Client.W_delete "new_ui" "dev"))
    "new_ui" "prod"
  = Some (mkFeatureFlag 2%N "new_ui" "prod" false 25 20).
Proof.
  assert (Hok : constraints_hold Sample.three).
  { apply (after_constraints
             [Client.W_create Sample.new_ui 1%N 10;
              Client.W_create Sample.new_ui_prod 2%N 20;
              Client.W_create Sample.search 3%N 30]). }
  assert (Hother : Data.target (Client.W_delete "new_ui" "dev") <> ("new_ui", "prod"))
    by discriminate.
  rewrite (write_leaves_other_pairs Sample.three (Client.W_delete "new_ui" "dev")
             "new_ui" "prod" Hok Hother).
  reflexivity.
Defined.

(** ** Counts under writes *)

Lemma filter_map_length {A : Type} (p : A -> bool) (f : A -> A) (l : list A) :
  (forall x, In x l -> p (f x) = p x) ->
  List.length (filter p (map f l)) = List.length (filter p l).
Proof.
  induction l as [| a l IH]; cbn; intros H; [reflexivity |].
  rewrite (H a (or_introl eq_refl)).
  assert (IH' : List.length (filter p (map f l)) = List.length (filter p l)).
  { apply IH. intros x Hx. apply H. right. exact Hx. }
  destruct (p a); cbn; rewrite IH'; reflexivity.
Qed.

Lemma delete_row_length (db : Session) (flag : FeatureFlag) :
  NoDup (map id db) -> In flag db ->
  S (List.length (delete_row db (id flag))) = List.length db.
Proof.
  unfold delete_row. induction db as [| g db IH]; cbn; intros Hnd Hin; [contradiction |].
  apply NoDup_cons_iff in Hnd. destruct Hnd as [Hnotin Hnd].
  destruct (has_id (id flag) g) eqn:Hid; cbn.
  - apply has_id_true in Hid. f_equal. f_equal. apply filter_all.
    intros x Hx. apply negb_true_iff.
    destruct (has_id (id flag) x) eqn:Hx_id; [| reflexivity].
    apply has_id_true in Hx_id. exfalso. apply Hnotin.
    rewrite Hid, <- Hx_id. apply in_map. exact Hx.
  - destruct Hin as [-> | Hin].
    + assert (H : has_id (id flag) flag = true) by (apply has_id_true; reflexivity).
      congruence.
    + rewrite (IH Hnd Hin). reflexivity.
Qed.

(** X9.  On a table that satisfies its constraints, a successful create
    raises the total count by one, a successful delete lowers it by one, and
    an update leaves the count for every environment filter as it was. *)
Theorem counts_under_writes (db : Session) :
  constraints_hold db ->
  (forall flag_data new_id now flag db',
     Crud.create_flag db flag_data new_id now = (Ok flag, db') ->
     Crud.count_flags db' None = S (Crud.count_flags db None)) /\
  (forall n e db',
     Crud.delete_flag db n e = (true, db') ->
     S (Crud.count_flags db' None) = Crud.count_flags db None) /\
  (forall n e flag_data now result db' env,
     Crud.update_flag db n e flag_data now = (result, db') ->
     Crud.count_flags db' env = Crud.count_flags db env).
Proof.
  intros [Hids _]. split; [| split].
  - intros flag_data new_id now flag db' Hcreate.
    destruct (create_flag_ok_inv db db' flag_data new_id now flag Hcreate)
      as [_ [-> _]].
    unfold Crud.count_flags. cbn. rewrite length_app. cbn. lia.
  - intros n e db' Hdel. unfold Crud.delete_flag in Hdel.
    destruct (Crud.get_flag db n e) as [flag |] eqn:Hget; [| discriminate].
    injection Hdel as <-. apply get_flag_Some in Hget.
    unfold Crud.count_flags. cbn. apply delete_row_length; [exact Hids | apply Hget].
  - intros n e flag_data now result db' env Hupd.
    destruct (Crud.get_flag db n e) as [flag |] eqn:Hget.
    + destruct (update_flag_found db n e flag_data now flag Hget)
        as [[_ Hsame] | [_ Hdiff]].
      * rewrite Hsame in Hupd. injection Hupd as _ <-. reflexivity.
      * cbn in Hdiff. rewrite Hdiff in Hupd. injection Hupd as _ <-.
        apply get_flag_Some in Hget. destruct Hget as [Hin _].
        unfold Crud.count_flags, Crud.query, update_row.
        destruct env as [env |]; [| apply length_map].
        destruct (Py.truthy env); [| apply length_map].
        apply filter_map_length. intros g Hg.
        destruct (has_id (id flag) g) eqn:Hid; [| reflexivity].
        apply has_id_true in Hid.
        rewrite (unique_key id db g flag Hids Hg Hin Hid). reflexivity.
    + rewrite (update_flag_absent db n e flag_data now Hget) in Hupd.
      injection Hupd as _ <-. reflexivity.
Qed.

Lemma counts_under_writes_witness :
  Crud.count_flags (delete_row Sample.three 1%N) None = 2%nat /\
  Crud.count_flags
    (update_row Sample.three 1%N (mkFeatureFlag 1%N "new_ui" "dev" false 50 99))
    (Some "dev") = 2%nat.
Proof.
  assert (Hok : constraints_hold Sample.three).
  { apply (after_constraints
             [Client.W_create Sample.new_ui 1%N 10;
              Client.W_create Sample.new_ui_prod 2%N 20;
              Client.W_create Sample.search 3%N 30]). }
  destruct (counts_under_writes Sample.three Hok) as [_ [Hdel Hupd]].
  split.
  - apply Nat.succ_inj.
    exact (Hdel "new_ui" "dev" (delete_row Sample.three 1%N) eq_refl).
  - exact (Hupd "new_ui" "dev" (Schemas.mkFeatureFlagUpdate (Some false) (Some 50)) 99
             (Some (mkFeatureFlag 1%N "new_ui" "dev" false 50 99))
             (update_row Sample.three 1%N (mkFeatureFlag 1%N "new_ui" "dev" false 50 99))
             (Some "dev") eq_refl).
Defined.

(** X10.  A deleted pair is free again: on a table that satisfies its
    constraints, after a delete that returned true, a create for the same
    pair with an identifier that no remaining row has succeeds and appends
    the new record. *)
Theorem delete_then_create (db db' : Session) (flag_data : Schemas.FeatureFlagCreate)
    (new_id : UUID) (now : datetime) :
  constraints_hold db ->
  Crud.delete_flag db (Schemas.c_name flag_data) (Schemas.c_environment flag_data)
    = (true, db') ->
  existsb (has_id new_id) db' = false ->
  exists flag,
    Crud.create_flag db' flag_data new_id now = (Ok flag, db' ++ [flag]) /\
    Crud.get_flag (db' ++ [flag]) (Schemas.c_name flag_data)
      (Schemas.c_environment flag_data) = Some flag.
Proof.
  intros Hok Hdel Hfresh. unfold Crud.delete_flag in Hdel.
  destruct (Crud.get_flag db _ _) as [old |] eqn:Hget; [| discriminate].
  injection Hdel as <-.
  pose proof (get_flag_delete_row db Hok _ _ old Hget) as Hfree.
  eexists. split.
  - apply create_flag_free; assumption.
  - rewrite get_flag_snoc, Hfree. unfold has_pair. cbn.
    rewrite !String.eqb_refl. reflexivity.
Qed.

Lemma delete_then_create_witness :
  exists flag,
    Crud.create_flag (delete_row Sample.three 1%N) Sample.new_ui 1%N 77
    = (Ok flag, delete_row Sample.three 1%N ++ [flag]) /\
    Crud.get_flag (delete_row Sample.three 1%N ++ [flag]) "new_ui" "dev" = Some flag.
Proof.
  apply (delete_then_create Sample.three (delete_row Sample.three 1%N)
           Sample.new_ui 1%N 77).
  - apply (after_constraints
             [Client.W_create Sample.new_ui 1%N 10;
              Client.W_create Sample.new_ui_prod 2%N 20;
              Client.W_create Sample.search 3%N 30]).
  - reflexivity.
  - reflexivity.
Defined.

(** ** The configured keys *)

Section Strings.
Import Data.

Lemma split_no_sep (sep : ascii) (s w : string) :
  In w (Py.split sep s) -> ~ In sep (chars w).
Proof.
  revert w. induction s as [| c s IH]; cbn; intros w Hin.
  - destruct Hin as [<- | []]. intros [].
  - destruct (Ascii.eqb c sep) eqn:Hc.
    + destruct Hin as [<- | Hin]; [intros [] | apply IH; exact Hin].
    + apply Ascii.eqb_neq in Hc.
      destruct (Py.split sep s) as [| w0 ws] eqn:Hsplit.
      * destruct Hin as [<- | []]. cbn. intros [H | []]. congruence.
      * destruct Hin as [<- | Hin].
        -- cbn. intros [H | H]; [congruence |].
           apply (IH w0 (or_introl eq_refl)). exact H.
        -- apply IH. right. exact Hin.
Qed.

Lemma lstrip_chars (s : string) (c : ascii) :
  In c (chars (Py.lstrip s)) -> In c (chars s).
Proof.
  induction s as [| a s IH]; cbn; [tauto |].
  destruct (Py.isspace a); cbn; [| tauto].
  intros H. right. apply IH. exact H.
Qed.

Lemma rstrip_chars (s : string) (c : ascii) :
  In c (chars (Py.rstrip s)) -> In c (chars s).
Proof.
  induction s as [| a s IH]; cbn; [tauto |].
  destruct (Py.rstrip s) as [| d u] eqn:Hr.
  - destruct (Py.isspace a); cbn; tauto.
  - cbn. intros [H | H]; [left; exact H | right].
    apply IH. exact H.
Qed.

Lemma rstrip_idem (s : string) : Py.rstrip (Py.rstrip s) = Py.rstrip s.
Proof.
  induction s as [| a s IH]; cbn; [reflexivity |].
  destruct (Py.rstrip s) as [| d u] eqn:Hr.
  - destruct (Py.isspace a) eqn:Ha; cbn; [reflexivity |].
    rewrite Ha. reflexivity.
  - change (Py.rstrip (String a (String d u))) with
      (match Py.rstrip (String d u) with
       | EmptyString => if Py.isspace a then EmptyString else String a EmptyString
       | t => String a t
       end).
    rewrite IH. reflexivity.
Qed.

Lemma lstrip_head (s : string) :
  Py.lstrip s = EmptyString \/
  exists c t, Py.lstrip s = String c t /\ Py.isspace c = false.
Proof.
  induction s as [| a s IH]; cbn; [left; reflexivity |].
  destruct (Py.isspace a) eqn:Ha; [exact IH |].
  right. exists a, s. split; [reflexivity | exact Ha].
Qed.

Lemma rstrip_head (c : ascii) (t : string) :
  Py.isspace c = false -> exists t', Py.rstrip (String c t) = String c t'.
Proof.
  intros Hc. cbn. destruct (Py.rstrip t); [rewrite Hc |]; eexists; reflexivity.
Qed.

Lemma strip_idem (s : string) : Py.strip (Py.strip s) = Py.strip s.
Proof.
  unfold Py.strip. destruct (lstrip_head s) as [-> | [c [t [-> Hc]]]]; [reflexivity |].
  destruct (rstrip_head c t Hc) as [t' Ht']. rewrite Ht'.
  cbn [Py.lstrip]. rewrite Hc. rewrite <- Ht'. apply rstrip_idem.
Qed.

Lemma strip_chars (s : string) (c : ascii) :
  In c (chars (Py.strip s)) -> In c (chars s).
Proof. intros H. apply lstrip_chars, rstrip_chars. exact H. Qed.

End Strings.

(** X11.  Every key that [get_api_keys] returns is non-empty, has no
    leading or trailing whitespace (stripping it again gives the same key),
    and contains no comma. *)
Theorem api_keys_clean (s : Auth.Settings) (k : string) :
  In k (Auth.get_api_keys s) ->
  k <> "" /\ Py.strip k = k /\ ~ In ","%char (Data.chars k).
Proof.
  unfold Auth.get_api_keys.
  destruct (Py.truthy (Auth.API_KEYS s)).
  - intros Hin. apply in_map_iff in Hin. destruct Hin as [key [<- Hin]].
    apply filter_In in Hin. destruct Hin as [Hfield Htruthy].
    split; [| split].
    + unfold Py.truthy in Htruthy. apply negb_true_iff in Htruthy.
      apply String.eqb_neq. exact Htruthy.
    + apply strip_idem.
    + intros Hcomma. apply strip_chars in Hcomma.
      apply (split_no_sep _ _ _ Hfield). exact Hcomma.
  - intros [<- | []]. split; [discriminate | split; [reflexivity |]].
    vm_compute. intros H.
    repeat (destruct H as [H | H]; [discriminate |]). exact H.
Qed.

Lemma api_keys_clean_witness :
  Auth.get_api_keys (Auth.mkSettings " alpha , beta,, ") = ["alpha"; "beta"] /\
  "beta" <> "" /\ Py.strip "beta" = "beta" /\ ~ In ","%char (Data.chars "beta").
Proof.
  split; [reflexivity |].
  apply (api_keys_clean (Auth.mkSettings " alpha , beta,, ") "beta").
  vm_compute. auto.
Defined.

(** X12.  [verify_api_key] lets a request through exactly when its header
    holds one of the configured keys, and then returns that key. *)
Theorem verify_api_key_accepts (s : Auth.Settings) (header : option string) (k : string) :
  Auth.verify_api_key s (Auth.API_KEY_HEADER header) = Ok k <->
  header = Some k /\ In k (Auth.get_api_keys s).
Proof.
  split.
  - destruct header as [h |]; cbn; [| discriminate].
    destruct (Py.truthy h) eqn:Hh; cbn; [| discriminate].
    rewrite Hh. cbn.
    destruct (Py.str_in h (Auth.get_api_keys s)) eqn:Hin; cbn; [| discriminate].
    intros H. injection H as <-. split; [reflexivity |].
    apply str_in_In. exact Hin.
  - intros [-> Hin].
    assert (Hk : Py.truthy k = true).
    { unfold Py.truthy. apply negb_true_iff. apply String.eqb_neq.
      apply (api_keys_nonempty s k Hin). }
    apply verify_api_key_valid; [| exact Hin].
    cbn. rewrite Hk. reflexivity.
Qed.

(** ** What validation lets through *)

Section Accepted.
Import Schemas.

Lemma required_str_Ok (field : string) (lo hi : nat) (o : option string) (s : string) :
  required_str field lo hi o = Ok s <->
  o = Some s /\ (lo <= String.length s <= hi)%nat.
Proof.
  unfold required_str. destruct o as [x |]; [| split; [discriminate | intros [H _]; discriminate]].
  destruct (String.length x <? lo)%nat eqn:H1.
  - apply Nat.ltb_lt in H1. split; [discriminate |].
    intros [H Hlen]. injection H as ->. lia.
  - apply Nat.ltb_ge in H1. destruct (hi <? String.length x)%nat eqn:H2.
    + apply Nat.ltb_lt in H2. split; [discriminate |].
      intros [H Hlen]. injection H as ->. lia.
    + apply Nat.ltb_ge in H2. split.
      * intros H. injection H as ->. split; [reflexivity | lia].
      * intros [H _]. injection H as ->. reflexivity.
Qed.

Lemma field_environment_Ok (o : option string) (e : string) :
  field_environment o = Ok e <->
  exists v, o = Some v /\ Client.matches_allowed v /\ e = Py.lower v.
Proof.
  split.
  - destruct o as [v |]; [| discriminate].
    intros H. exists v. split; [reflexivity |].
    assert (Hm : Client.matches_allowed v).
    { rewrite matches_allowed_iff.
      destruct (Py.str_in (Py.lower v) allowed) eqn:Hin; [reflexivity |].
      assert (Hno : ~ Client.matches_allowed v)
        by (rewrite matches_allowed_iff; congruence).
      destruct (field_environment_unlisted v Hno) as [m Hm]. congruence. }
    split; [exact Hm |].
    rewrite (field_environment_matching v Hm) in H. injection H as <-. reflexivity.
  - intros [v [-> [Hm ->]]]. apply field_environment_matching. exact Hm.
Qed.

Lemma bounded_int_Ok (field : string) (lo hi v r : Z) :
  bounded_int field lo hi v = Ok r <-> r = v /\ lo <= v <= hi.
Proof.
  unfold bounded_int.
  destruct (v <? lo) eqn:H1; [apply Z.ltb_lt in H1 | apply Z.ltb_ge in H1].
  - split; [discriminate | intros [_ H]; lia].
  - destruct (hi <? v) eqn:H2; [apply Z.ltb_lt in H2 | apply Z.ltb_ge in H2].
    + split; [discriminate | intros [_ H]; lia].
    + split.
      * intros H. injection H as <-. split; [reflexivity | lia].
      * intros [-> _]. reflexivity.
Qed.

Lemma field_rollout_Ok (o : option Z) (r : Z) :
  field_rollout o = Ok r <-> r = Client.supplied o 100 /\ 0 <= r <= 100.
Proof.
  unfold field_rollout. destruct o as [v |]; cbn.
  - rewrite bounded_int_Ok. split; intros [-> H]; split; try reflexivity; exact H.
  - split.
    + intros H. injection H as <-. split; [reflexivity | lia].
    + intros [-> _]. reflexivity.
Qed.

(** The fields of an accepted create body. *)
Lemma parse_create_Ok (b : CreateBody) (fd : FeatureFlagCreate) :
  parse_FeatureFlagCreate b = Ok fd <->
  field_name (body_name b) = Ok (c_name fd) /\
  field_environment (body_environment b) = Ok (c_environment fd) /\
  c_enabled fd = Client.supplied (body_enabled b) false /\
  field_rollout (body_rollout b) = Ok (c_rollout fd).
Proof.
  split.
  - unfold parse_FeatureFlagCreate.
    destruct (field_name (body_name b)); destruct (field_environment (body_environment b));
      destruct (body_enabled b); destruct (field_rollout (body_rollout b));
      cbn; intros H; try discriminate; injection H as <-; cbn; repeat split.
  - intros [Hn [He [Hen Hr]]].
    rewrite (parse_create_ok b _ _ _ Hn He Hr). destruct fd. cbn in *. subst. reflexivity.
Qed.

End Accepted.

(** X13.  A create body is accepted exactly when its name has 1 to 100
    characters, its environment matches an allowed value when case is
    ignored, and its rollout, 100 when omitted, lies in [0, 100]; the accepted
    data carry that name, the environment in lowercase (a member of the
    allowed list), enabled as given or false, and that rollout. *)
Theorem parse_FeatureFlagCreate_accepts
    (b : Schemas.CreateBody) (fd : Schemas.FeatureFlagCreate) :
  Schemas.parse_FeatureFlagCreate b = Ok fd <->
  Schemas.body_name b = Some (Schemas.c_name fd) /\
  (1 <= String.length (Schemas.c_name fd) <= 100)%nat /\
  (exists v, Schemas.body_environment b = Some v /\
             Client.matches_allowed v /\
             Schemas.c_environment fd = Py.lower v /\
             In (Schemas.c_environment fd) Schemas.allowed) /\
  Schemas.c_enabled fd = Client.supplied (Schemas.body_enabled b) false /\
  Schemas.c_rollout fd = Client.supplied (Schemas.body_rollout b) 100 /\
  0 <= Schemas.c_rollout fd <= 100.
Proof.
  rewrite parse_create_Ok. unfold Schemas.field_name.
  rewrite required_str_Ok, field_environment_Ok, field_rollout_Ok.
  split.
  - intros [[Hn Hlen] [[v [Hv [Hm He]]] [Hen [Hr Hrange]]]].
    repeat split; try assumption; try lia.
    exists v. repeat split; try assumption.
    rewrite He. apply str_in_In. apply matches_allowed_iff. exact Hm.
  - intros [Hn [Hlen [[v [Hv [Hm [He _]]]] [Hen [Hr Hrange]]]]].
    repeat split; try assumption; try lia.
    exists v. repeat split; assumption.
Qed.

Lemma parse_FeatureFlagCreate_accepts_witness :
  Schemas.parse_FeatureFlagCreate
    (Schemas.mkCreateBody (Some "new_ui") (Some "Staging") None (Some 30))
  = Ok (Schemas.mkFeatureFlagCreate "new_ui" "staging" false 30).
Proof.
  apply (parse_FeatureFlagCreate_accepts
           (Schemas.mkCreateBody (Some "new_ui") (Some "Staging") None (Some 30))
           (Schemas.mkFeatureFlagCreate "new_ui" "staging" false 30)).
  cbn. repeat split; try lia.
  exists "Staging". repeat split.
  - apply matches_allowed_iff. reflexivity.
  - auto 10.
Defined.

(** X14.  The environment validator is idempotent: the value it returns is a
    member of the allowed list, and validating that value again returns it
    unchanged. *)
Theorem validate_environment_idempotent (v e : string) :
  Schemas.validate_environment v = Ok e ->
  In e Schemas.allowed /\ Schemas.validate_environment e = Ok e.
Proof.
  unfold Schemas.validate_environment at 1.
  destruct (Py.str_in (Py.lower v) Schemas.allowed) eqn:Hin; cbn; [| discriminate].
  intros H. injection H as <-. apply str_in_In in Hin.
  split; [exact Hin |].
  cbn in Hin.
  repeat (destruct Hin as [<- | Hin]; [reflexivity |]). contradiction.
Qed.

Lemma validate_environment_idempotent_witness :
  In "production" Schemas.allowed /\
  Schemas.validate_environment "production" = Ok "production".
Proof.
  apply (validate_environment_idempotent "PRODUCTION" "production"). reflexivity.
Defined.

(** X15.  The validator [validate_rollout] never rejects a value that passed
    the bounds [ge=0, le=100] of the field: on update, a supplied rollout is
    either returned as supplied or refused, and then with the error of the
    bounds. *)
Theorem validate_rollout_never_fires (v : Z) :
  (forall v', Schemas.bounded_int "rollout" 0 100 v = Ok v' ->
              Schemas.validate_rollout (Some v') = Ok (Some v')) /\
  (Schemas.field_rollout_update (Some v) = Ok (Some v) \/
   exists errs,
     Schemas.bounded_int "rollout" 0 100 v = Raise errs /\
     Schemas.field_rollout_update (Some v) = Raise errs).
Proof.
  split.
  - intros v' H. apply bounded_int_Ok in H. destruct H as [-> [Hlo Hhi]].
    unfold Schemas.validate_rollout.
    destruct (v <? 0) eqn:H1; [apply Z.ltb_lt in H1; lia |].
    destruct (100 <? v) eqn:H2; [apply Z.ltb_lt in H2; lia |].
    reflexivity.
  - unfold Schemas.field_rollout_update, Schemas.bounded_int, Schemas.validate_rollout.
    destruct (v <? 0) eqn:H1.
    + right. eexists. split; reflexivity.
    + destruct (100 <? v) eqn:H2.
      * right. eexists. split; reflexivity.
      * left. rewrite H1, H2. reflexivity.
Qed.

Lemma validate_rollout_never_fires_witness :
  Schemas.validate_rollout (Some 100) = Ok (Some 100).
Proof.
  apply (proj1 (validate_rollout_never_fires 100) 100). reflexivity.
Defined.

Lemma verify_api_key_accepts_witness :
  Auth.verify_api_key Auth.default_settings (Auth.API_KEY_HEADER Sample.key)
  = Ok "dev-api-key-12345".
Proof.
  apply (verify_api_key_accepts Auth.default_settings Sample.key "dev-api-key-12345").
  split; [reflexivity | left; reflexivity].
Defined.

(** ** The endpoints as a whole *)

Section Endpoints.
Import Schemas.

Lemma parse_update_Ok (b fd : FeatureFlagUpdate) :
  parse_FeatureFlagUpdate b = Ok fd ->
  fd = b /\ forall r, u_rollout fd = Some r -> 0 <= r <= 100.
Proof.
  unfold parse_FeatureFlagUpdate, field_rollout_update.
  destruct b as [en [v |]]; cbn.
  - destruct (bounded_int "rollout" 0 100 v) as [v' | errs] eqn:Hb; [| discriminate].
    apply bounded_int_Ok in Hb. destruct Hb as [-> Hrange].
    unfold validate_rollout.
    destruct ((v <? 0) || (100 <? v)); [discriminate |].
    intros H. injection H as <-. split; [reflexivity |].
    cbn. intros r Hr. injection Hr as <-. exact Hrange.
  - intros H. injection H as <-. split; [reflexivity |]. cbn. discriminate.
Qed.

(** The session after a request is the session before, or what one store
    function made of it on validated input. *)
Lemma handle_session_cases (w : Main.World) (header : option string)
    (req : Main.Request) (db : Session) :
  Main.session (Main.handle w header req db) = db \/
  (exists body fd,
      req = Main.POST_flags body /\ parse_FeatureFlagCreate body = Ok fd /\
      Main.session (Main.handle w header req db)
      = snd (Crud.create_flag db fd (Main.uuid4 w) (Main.now w))) \/
  (exists n e body fd,
      req = Main.PUT_flag n (Some e) body /\ parse_FeatureFlagUpdate body = Ok fd /\
      Main.session (Main.handle w header req db)
      = snd (Crud.update_flag db n e fd (Main.now w))) \/
  (exists n e,
      req = Main.DELETE_flag n (Some e) /\
      Main.session (Main.handle w header req db) = snd (Crud.delete_flag db n e)).
Proof.
  destruct req as [| body | env skip limit | n env | n env body | n env | | n env]; cbn;
    [| | | | | | left; reflexivity | left; reflexivity].
  - left. reflexivity.
  - unfold Main.create_feature_flag.
    destruct (Auth.verify_api_key _ _); [| left; reflexivity].
    destruct (parse_FeatureFlagCreate body) as [fd | errs] eqn:Hparse; [| left; reflexivity].
    right. left. exists body, fd. split; [reflexivity | split; [exact Hparse |]].
    destruct (Crud.create_flag db fd (Main.uuid4 w) (Main.now w)) as [[flag | e] db'];
      reflexivity.
  - unfold Main.list_feature_flags.
    destruct (Auth.verify_api_key _ _); [| left; reflexivity].
    destruct (Main.query_int "skip" 0 0 None skip) as [s | errs];
      destruct (Main.query_int "limit" 100 1 (Some 1000) limit);
      try destruct (Main.engine_int_max <? s); left; reflexivity.
  - unfold Main.fetch_feature_flag.
    destruct (Auth.verify_api_key _ _); [| left; reflexivity].
    destruct (Main.query_str "environment" env) as [e0 | errs]; [| left; reflexivity].
    destruct (Crud.get_flag db n e0); left; reflexivity.
  - unfold Main.update_feature_flag.
    destruct (Auth.verify_api_key _ _); [| left; reflexivity].
    destruct env as [e |]; cbn.
    + destruct (parse_FeatureFlagUpdate body) as [fd | errs] eqn:Hparse;
        [| left; reflexivity].
      right. right. left. exists n, e, body, fd.
      split; [reflexivity | split; [exact Hparse |]].
      destruct (Crud.update_flag db n e fd (Main.now w)) as [[flag |] db']; reflexivity.
    + destruct (parse_FeatureFlagUpdate body); left; reflexivity.
  - unfold Main.delete_feature_flag.
    destruct (Auth.verify_api_key _ _); [| left; reflexivity].
    destruct env as [e |]; cbn; [| left; reflexivity].
    right. right. right. exists n, e. split; [reflexivity |].
    destruct (Crud.delete_flag db n e) as [[|] db']; reflexivity.
Qed.

End Endpoints.

(** X16.  Behind a valid key the list endpoint takes offset 0 and limit 100
    when they are omitted.  With an offset from 0 to the largest integer of
    the engine and a limit from 1 to 1000 it answers with that page and the
    count for the filter, the page holding at most 1000 records and no more
    than the count.  With a larger offset and a limit from 1 to 1000 the
    query of [list_flags] raises and the answer is the 500 of
    [general_exception_handler], the session untouched.  With a negative
    offset or a limit outside 1 to 1000 it answers with validation errors
    and calls no store function. *)
Theorem list_feature_flags_parameters
    (w : Main.World) (header : option string) (k : string)
    (env : option string) (skip limit : option Z) (db : Session) :
  Auth.verify_api_key (Main.settings w) (Auth.API_KEY_HEADER header) = Ok k ->
  let s := Client.supplied skip 0 in
  let l := Client.supplied limit 100 in
  (0 <= s <= Main.engine_int_max /\ 1 <= l <= 1000 ->
   let page := Crud.list_flags db env (Z.to_nat s) (Z.to_nat l) in
   Main.handle w header (Main.GET_flags env skip limit) db
   = Main.mkReply (Main.FlagList page (Crud.count_flags db env)) db
       [Main.call_list_flags; Main.call_count_flags] /\
   (List.length page <= 1000)%nat /\
   (List.length page <= Crud.count_flags db env)%nat) /\
  (Main.engine_int_max < s /\ 1 <= l <= 1000 ->
   Main.handle w header (Main.GET_flags env skip limit) db
   = Main.mkReply Main.InternalError db [Main.call_list_flags]) /\
  (s < 0 \/ l < 1 \/ 1000 < l ->
   exists errs,
     errs <> [] /\
     Main.handle w header (Main.GET_flags env skip limit) db
     = Main.mkReply (Main.Unprocessable errs) db []).
Proof.
  intros Hkey s l. cbn [Main.handle]. unfold Main.list_feature_flags. rewrite Hkey.
  assert (Hskip : 0 <= s -> Main.query_int "skip" 0 0 None skip = Ok s).
  { intros Hs. unfold Main.query_int, s in *. destruct skip as [v |]; cbn in *;
      [| reflexivity].
    destruct (v <? 0) eqn:H; [apply Z.ltb_lt in H; lia | reflexivity]. }
  assert (Hlimit : 1 <= l <= 1000 ->
                   Main.query_int "limit" 100 1 (Some 1000) limit = Ok l).
  { intros Hl. unfold Main.query_int, l in *. destruct limit as [v |]; cbn in *;
      [| reflexivity].
    destruct (v <? 1) eqn:H1; [apply Z.ltb_lt in H1; lia |].
    destruct (1000 <? v) eqn:H2; [apply Z.ltb_lt in H2; lia | reflexivity]. }
  split; [| split].
  - intros [[Hs Hmax] Hl]. rewrite (Hskip Hs), (Hlimit Hl).
    destruct (Main.engine_int_max <? s) eqn:Hover; [apply Z.ltb_lt in Hover; lia |].
    split; [reflexivity |].
    unfold Crud.list_flags, Crud.count_flags.
    rewrite length_firstn, length_skipn. split; lia.
  - intros [Hover Hl].
    assert (Hs : 0 <= s) by (unfold Main.engine_int_max in Hover; lia).
    rewrite (Hskip Hs), (Hlimit Hl).
    apply Z.ltb_lt in Hover. rewrite Hover. reflexivity.
  - intros Hbad. clear Hskip Hlimit. unfold Main.query_int. subst s l.
    destruct skip as [vs |]; destruct limit as [vl |]; cbn in Hbad |- *.
    + destruct (vs <? 0) eqn:H0; destruct (vl <? 1) eqn:H1;
        try destruct (1000 <? vl) eqn:H2; cbn;
        try (eexists; split; [| reflexivity]; discriminate).
      apply Z.ltb_ge in H0, H1, H2. lia.
    + destruct (vs <? 0) eqn:H0; cbn;
        try (eexists; split; [| reflexivity]; discriminate).
      apply Z.ltb_ge in H0. lia.
    + destruct (vl <? 1) eqn:H1; try destruct (1000 <? vl) eqn:H2; cbn;
        try (eexists; split; [| reflexivity]; discriminate).
      apply Z.ltb_ge in H1, H2. lia.
    + lia.
Qed.

Lemma list_feature_flags_parameters_witness :
  Main.handle Sample.world Sample.key (Main.GET_flags (Some "dev") (Some 1) None)
    Sample.three
  = Main.mkReply
      (Main.FlagList [mkFeatureFlag 3%N "search" "dev" false 0 30] 2) Sample.three
      [Main.call_list_flags; Main.call_count_flags] /\
  Main.handle Sample.world Sample.key
    (Main.GET_flags None (Some 9223372036854775808) None) Sample.three
  = Main.mkReply Main.InternalError Sample.three [Main.call_list_flags] /\
  exists errs,
    errs <> [] /\
    Main.handle Sample.world Sample.key (Main.GET_flags None None (Some 1001))
      Sample.three
    = Main.mkReply (Main.Unprocessable errs) Sample.three [].
Proof.
  split; [| split].
  - assert (Hgood : 0 <= 1 <= Main.engine_int_max /\ 1 <= 100 <= 1000)
      by (unfold Main.engine_int_max; lia).
    exact (proj1 (proj1 (list_feature_flags_parameters Sample.world Sample.key
                           "dev-api-key-12345" (Some "dev") (Some 1) None Sample.three
                           eq_refl) Hgood)).
  - assert (Hover : Main.engine_int_max < 9223372036854775808 /\ 1 <= 100 <= 1000)
      by (unfold Main.engine_int_max; lia).
    exact (proj1 (proj2 (list_feature_flags_parameters Sample.world Sample.key
                           "dev-api-key-12345" None (Some 9223372036854775808) None
                           Sample.three eq_refl)) Hover).
  - assert (Hbad : 0 < 0 \/ 1001 < 1 \/ 1000 < 1001) by lia.
    exact (proj2 (proj2 (list_feature_flags_parameters Sample.world Sample.key
                           "dev-api-key-12345" None None (Some 1001) Sample.three
                           eq_refl)) Hbad).
Defined.

(** X17.  A request that is answered with an error (401, 422, or the status
    of a raised exception), and every GET request, leaves the session as it
    was. *)
Theorem errors_and_reads_keep_session
    (w : Main.World) (header : option string) (req : Main.Request) (db : Session) :
  Data.is_error (Main.response (Main.handle w header req db)) = true \/
  Data.is_get req = true ->
  Main.session (Main.handle w header req db) = db.
Proof.
  intros H.
  destruct (handle_session_cases w header req db)
    as [Hsame | [[body [fd [-> [Hparse Hs]]]] | [[n [e [body [fd [-> [Hparse Hs]]]]]]
                                                 | [n [e [-> Hs]]]]]];
    [exact Hsame | | |]; destruct H as [H | H]; try discriminate; clear Hs.
  - revert H. cbn [Main.handle]. unfold Main.create_feature_flag.
    destruct (Auth.verify_api_key _ _); [| reflexivity].
    rewrite Hparse.
    destruct (create_flag_cases db fd (Main.uuid4 w) (Main.now w))
      as [[err ->] | [flag [db' [-> _]]]]; cbn; [reflexivity | discriminate].
  - revert H. cbn [Main.handle]. unfold Main.update_feature_flag.
    destruct (Auth.verify_api_key _ _); [| reflexivity].
    cbn. rewrite Hparse.
    destruct (Crud.get_flag db n e) as [flag |] eqn:Hget.
    + destruct (update_flag_found db n e fd (Main.now w) flag Hget)
        as [[_ ->] | [_ Hupd]]; [reflexivity |].
      cbn in Hupd. rewrite Hupd. cbn. discriminate.
    + rewrite (update_flag_absent db n e fd (Main.now w) Hget). reflexivity.
  - revert H. cbn [Main.handle]. unfold Main.delete_feature_flag.
    destruct (Auth.verify_api_key _ _); [| reflexivity].
    cbn. unfold Crud.delete_flag.
    destruct (Crud.get_flag db n e); cbn; [discriminate | reflexivity].
Qed.

Lemma errors_and_reads_keep_session_witness :
  Main.session
    (Main.handle Sample.world Sample.key
       (Main.PUT_flag "absent" (Some "dev") (Schemas.mkFeatureFlagUpdate (Some true) None))
       Sample.three)
  = Sample.three.
Proof.
  apply (errors_and_reads_keep_session Sample.world Sample.key
           (Main.PUT_flag "absent" (Some "dev")
              (Schemas.mkFeatureFlagUpdate (Some true) None)) Sample.three).
  left. reflexivity.
Defined.

(** X18.  No request breaks the constraints of the table: if they hold
    before a request, they hold on the session after it, whatever the route,
    the header and the parameters. *)
Theorem handle_keeps_constraints
    (w : Main.World) (header : option string) (req : Main.Request) (db : Session) :
  constraints_hold db ->
  constraints_hold (Main.session (Main.handle w header req db)).
Proof.
  intros Hok.
  destruct (handle_session_cases w header req db)
    as [-> | [[body [fd [_ [_ ->]]]] | [[n [e [body [fd [_ [_ ->]]]]]]
                                        | [n [e [_ ->]]]]]].
  - exact Hok.
  - apply create_flag_keeps_constraints. exact Hok.
  - apply update_flag_keeps_constraints. exact Hok.
  - apply delete_flag_keeps_constraints. exact Hok.
Qed.

Lemma handle_keeps_constraints_witness :
  constraints_hold
    (Main.session
       (Main.handle Sample.world Sample.key
          (Main.POST_flags (Schemas.mkCreateBody (Some "beta") (Some "dev") None None))
          Sample.three)).
Proof.
  apply (handle_keeps_constraints Sample.world Sample.key
           (Main.POST_flags (Schemas.mkCreateBody (Some "beta") (Some "dev") None None))
           Sample.three).
  apply (after_constraints
           [Client.W_create Sample.new_ui 1%N 10;
            Client.W_create Sample.new_ui_prod 2%N 20;
            Client.W_create Sample.search 3%N 30]).
Defined.

(** ** What the endpoints store *)

Section Stored.
Import Schemas.

Lemma parse_create_valid (b : CreateBody) (fd : FeatureFlagCreate)
    (i : UUID) (t : datetime) :
  parse_FeatureFlagCreate b = Ok fd ->
  Data.valid_flag (mkFeatureFlag i (c_name fd) (c_environment fd) (c_enabled fd)
                     (c_rollout fd) t).
Proof.
  intros H. apply parse_create_Ok in H. destruct H as [Hn [He [_ Hr]]].
  unfold field_name in Hn. apply required_str_Ok in Hn.
  apply field_environment_Ok in He. destruct He as [v [_ [Hm He]]].
  apply field_rollout_Ok in Hr.
  unfold Data.valid_flag. cbn [name environment rollout].
  split; [apply Hn | split; [| apply Hr]].
  rewrite He. apply str_in_In. apply matches_allowed_iff. exact Hm.
Qed.

Lemma create_flag_keeps_valid (db : Session) (b : CreateBody) (fd : FeatureFlagCreate)
    (i : UUID) (t : datetime) :
  parse_FeatureFlagCreate b = Ok fd -> Data.valid_data db ->
  Data.valid_data (snd (Crud.create_flag db fd i t)).
Proof.
  intros Hparse Hvalid.
  destruct (create_flag_cases db fd i t)
    as [[err ->] | [flag [db' [Hcreate _]]]]; [exact Hvalid |].
  destruct (create_flag_ok_inv db db' fd i t flag Hcreate) as [Hflag [Hdb' _]].
  rewrite Hcreate. cbn. rewrite Hdb'. unfold Data.valid_data.
  apply Forall_app. split; [exact Hvalid |].
  constructor; [| constructor]. rewrite Hflag.
  apply (parse_create_valid b fd i t Hparse).
Qed.

Lemma update_flag_keeps_valid (db : Session) (n e : string)
    (b fd : FeatureFlagUpdate) (t : datetime) :
  parse_FeatureFlagUpdate b = Ok fd -> Data.valid_data db ->
  Data.valid_data (snd (Crud.update_flag db n e fd t)).
Proof.
  intros Hparse Hvalid. apply parse_update_Ok in Hparse. destruct Hparse as [_ Hr].
  destruct (Crud.get_flag db n e) as [flag |] eqn:Hget.
  - destruct (update_flag_found db n e fd t flag Hget)
      as [[_ ->] | [_ Hupd]]; [exact Hvalid |].
    cbn in Hupd. rewrite Hupd. cbn.
    apply get_flag_Some in Hget. destruct Hget as [Hin _].
    unfold Data.valid_data in *. rewrite Forall_forall in *.
    intros x Hx. unfold update_row in Hx. apply in_map_iff in Hx.
    destruct Hx as [g [Hg Hgin]].
    destruct (has_id (id flag) g); [| rewrite <- Hg; apply Hvalid; exact Hgin].
    rewrite <- Hg. destruct (Hvalid flag Hin) as [Hname [Henv Hroll]].
    unfold Data.valid_flag. cbn. split; [exact Hname | split; [exact Henv |]].
    destruct (u_rollout fd) as [r |] eqn:Hsup; cbn; [apply Hr; reflexivity | exact Hroll].
  - rewrite (update_flag_absent db n e fd t Hget). exact Hvalid.
Qed.

Lemma delete_flag_keeps_valid (db : Session) (n e : string) :
  Data.valid_data db -> Data.valid_data (snd (Crud.delete_flag db n e)).
Proof.
  intros Hvalid. unfold Crud.delete_flag.
  destruct (Crud.get_flag db n e); cbn; [| exact Hvalid].
  unfold Data.valid_data, delete_row in *. rewrite Forall_forall in *.
  intros x Hx. apply filter_In in Hx. apply Hvalid. apply Hx.
Qed.

End Stored.

(** X19.  The endpoints store valid data only: if every row of the table has
    a name of 1 to 100 characters, an environment from the allowed list and a
    rollout in [0, 100], the same holds on the session after any request. *)
Theorem handle_keeps_valid_data
    (w : Main.World) (header : option string) (req : Main.Request) (db : Session) :
  Data.valid_data db ->
  Data.valid_data (Main.session (Main.handle w header req db)).
Proof.
  intros Hvalid.
  destruct (handle_session_cases w header req db)
    as [-> | [[body [fd [_ [Hparse ->]]]] | [[n [e [body [fd [_ [Hparse ->]]]]]]
                                             | [n [e [_ ->]]]]]].
  - exact Hvalid.
  - apply (create_flag_keeps_valid db body fd _ _ Hparse Hvalid).
  - apply (update_flag_keeps_valid db n e body fd _ Hparse Hvalid).
  - apply delete_flag_keeps_valid. exact Hvalid.
Qed.

Lemma handle_keeps_valid_data_witness :
  Data.valid_data
    (Main.session
       (Main.handle Sample.world Sample.key
          (Main.POST_flags (Schemas.mkCreateBody (Some "beta") (Some "DEV") None (Some 5)))
          [])).
Proof.
  apply (handle_keeps_valid_data Sample.world Sample.key
           (Main.POST_flags (Schemas.mkCreateBody (Some "beta") (Some "DEV") None (Some 5)))
           []).
  constructor.
Defined.

(** X20.  On a table of valid data no flag is stored under an environment
    outside the allowed list, so [get_flag] with such an environment returns
    nothing and, behind a valid key, the fetch endpoint answers not-found for
    it whatever the name. *)
Theorem unlisted_environment_not_found
    (w : Main.World) (header : option string) (k : string)
    (db : Session) (n e : string) :
  Data.valid_data db ->
  ~ In e Schemas.allowed ->
  Auth.verify_api_key (Main.settings w) (Auth.API_KEY_HEADER header) = Ok k ->
  Crud.get_flag db n e = None /\
  Main.handle w header (Main.GET_flag n (Some e)) db
  = Main.mkReply (Main.Failed (FlagNotFoundError n e)) db [Main.call_get_flag].
Proof.
  intros Hvalid Hout Hkey.
  assert (Hnone : Crud.get_flag db n e = None).
  { destruct (Crud.get_flag db n e) as [f |] eqn:Hget; [exfalso | reflexivity].
    apply get_flag_Some in Hget. destruct Hget as [Hin [_ He]].
    unfold Data.valid_data in Hvalid. rewrite Forall_forall in Hvalid.
    destruct (Hvalid f Hin) as [_ [Henv _]]. apply Hout. rewrite <- He. exact Henv. }
  split; [exact Hnone |].
  rewrite (fetch_authorized w header k Hkey), Hnone. reflexivity.
Qed.

Lemma unlisted_environment_not_found_witness :
  Crud.get_flag Sample.three "new_ui" "PROD" = None /\
  Main.handle Sample.world Sample.key (Main.GET_flag "new_ui" (Some "PROD")) Sample.three
  = Main.mkReply (Main.Failed (FlagNotFoundError "new_ui" "PROD")) Sample.three
      [Main.call_get_flag].
Proof.
  apply (unlisted_environment_not_found Sample.world Sample.key "dev-api-key-12345"
           Sample.three "new_ui" "PROD").
  - assert (Hrows : Sample.three
                    = [mkFeatureFlag 1%N "new_ui" "dev" true 100 10;
                       mkFeatureFlag 2%N "new_ui" "prod" false 25 20;
                       mkFeatureFlag 3%N "search" "dev" false 0 30]) by reflexivity.
    rewrite Hrows. unfold Data.valid_data.
    repeat (apply Forall_cons;
            [split; [cbn; lia | split; [cbn; auto 10 | cbn; lia]] |]).
    apply Forall_nil.
  - cbn. intros H. repeat (destruct H as [H | H]; [discriminate |]). exact H.
  - reflexivity.
Defined.

(** ** Requests in sequence *)

(** X21.  Behind a valid key: the flag that a create request returns is the
    one that a fetch with its name and stored environment returns on the
    session it left; the flag that an update request returns is the one that
    a fetch with the same name and environment then returns; and after a
    delete request answered with 204 on a table that satisfies its
    constraints, a fetch with the same name and environment is answered
    not-found. *)
Theorem fetch_after_write
    (w : Main.World) (header : option string) (k : string) (db : Session) :
  Auth.verify_api_key (Main.settings w) (Auth.API_KEY_HEADER header) = Ok k ->
  (forall body flag db' cs,
     Main.handle w header (Main.POST_flags body) db
     = Main.mkReply (Main.Created flag) db' cs ->
     Main.handle w header (Main.GET_flag (name flag) (Some (environment flag))) db'
     = Main.mkReply (Main.Flag flag) db' [Main.call_get_flag]) /\
  (forall n e body flag db' cs,
     Main.handle w header (Main.PUT_flag n (Some e) body) db
     = Main.mkReply (Main.Flag flag) db' cs ->
     Main.handle w header (Main.GET_flag n (Some e)) db'
     = Main.mkReply (Main.Flag flag) db' [Main.call_get_flag]) /\
  (forall n e db' cs,
     constraints_hold db ->
     Main.handle w header (Main.DELETE_flag n (Some e)) db
     = Main.mkReply Main.NoContent db' cs ->
     Main.handle w header (Main.GET_flag n (Some e)) db'
     = Main.mkReply (Main.Failed (FlagNotFoundError n e)) db' [Main.call_get_flag]).
Proof.
  intros Hkey. split; [| split].
  - intros body flag db' cs Hpost.
    rewrite (create_authorized w header k Hkey) in Hpost.
    destruct (Schemas.parse_FeatureFlagCreate body) as [fd | errs]; [| discriminate].
    destruct (Crud.create_flag db fd (Main.uuid4 w) (Main.now w))
      as [[flag0 | err] db0] eqn:Hcreate; [| discriminate].
    injection Hpost as -> -> _.
    destruct (create_flag_ok_inv db db' fd _ _ flag Hcreate) as [Hflag [-> [Hfree _]]].
    rewrite (fetch_authorized w header k Hkey).
    assert (Hn : name flag = Schemas.c_name fd) by (rewrite Hflag; reflexivity).
    assert (He : environment flag = Schemas.c_environment fd)
      by (rewrite Hflag; reflexivity).
    rewrite get_flag_snoc, Hn, He, Hfree.
    assert (Hp : has_pair (Schemas.c_name fd) (Schemas.c_environment fd) flag = true)
      by (apply has_pair_true; split; assumption).
    rewrite Hp. reflexivity.
  - intros n e body flag db' cs Hput.
    rewrite (update_authorized w header k Hkey) in Hput.
    destruct (Schemas.parse_FeatureFlagUpdate body) as [fd | errs]; [| discriminate].
    destruct (Crud.update_flag db n e fd (Main.now w)) as [[flag0 |] db0] eqn:Hupd;
      [| discriminate].
    injection Hput as -> -> _.
    rewrite (fetch_authorized w header k Hkey).
    assert (Hget' : Crud.get_flag db' n e = Some flag).
    { destruct (Crud.get_flag db n e) as [old |] eqn:Hget.
      - destruct (update_flag_found db n e fd (Main.now w) old Hget)
          as [[_ Hsame] | [_ Hdiff]].
        + rewrite Hsame in Hupd. injection Hupd as <- <-. exact Hget.
        + cbn in Hdiff. rewrite Hdiff in Hupd. injection Hupd as <- <-.
          apply get_flag_Some in Hget as Hold. destruct Hold as [_ [Hn He]].
          apply get_flag_update_row; assumption.
      - rewrite (update_flag_absent db n e fd (Main.now w) Hget) in Hupd.
        discriminate. }
    rewrite Hget'. reflexivity.
  - intros n e db' cs Hok Hdel.
    rewrite (delete_authorized w header k Hkey) in Hdel.
    unfold Crud.delete_flag in Hdel.
    destruct (Crud.get_flag db n e) as [old |] eqn:Hget; [| discriminate].
    injection Hdel as <- _.
    rewrite (fetch_authorized w header k Hkey).
    rewrite (get_flag_delete_row db Hok n e old Hget). reflexivity.
Qed.

Lemma fetch_after_write_witness :
  let flag := mkFeatureFlag 7%N "beta" "staging" true 100 1000 in
  Main.handle Sample.world Sample.key
    (Main.POST_flags (Schemas.mkCreateBody (Some "beta") (Some "STAGING") (Some true) None))
    Sample.three
  = Main.mkReply (Main.Created flag) (Sample.three ++ [flag]) [Main.call_create_flag] /\
  Main.handle Sample.world Sample.key (Main.GET_flag "beta" (Some "staging"))
    (Sample.three ++ [flag])
  = Main.mkReply (Main.Flag flag) (Sample.three ++ [flag]) [Main.call_get_flag].
Proof.
  cbv zeta. split; [reflexivity |].
  exact (proj1 (fetch_after_write Sample.world Sample.key "dev-api-key-12345"
                  Sample.three eq_refl)
           (Schemas.mkCreateBody (Some "beta") (Some "STAGING") (Some true) None)
           (mkFeatureFlag 7%N "beta" "staging" true 100 1000)
           (Sample.three ++ [mkFeatureFlag 7%N "beta" "staging" true 100 1000])
           [Main.call_create_flag] eq_refl).
Defined.

(** ** What each route answers *)




(** X23.  The pair of a create request ignores the case of the environment:
    behind a valid key, once a create request has been answered with 201, a
    second create request with the same name and an environment that differs
    at most in case is answered with [FlagAlreadyExistsError] and leaves the
    session as the first request left it. *)
Theorem second_create_conflicts
    (w w' : Main.World) (header : option string) (k : string) (db db' : Session)
    (body body' : Schemas.CreateBody) (fd' : Schemas.FeatureFlagCreate)
    (v v' : string) (flag : FeatureFlag) (cs : list Main.StoreCall) :
  Auth.verify_api_key (Main.settings w) (Auth.API_KEY_HEADER header) = Ok k ->
  Main.settings w' = Main.settings w ->
  Main.handle w header (Main.POST_flags body) db
  = Main.mkReply (Main.Created flag) db' cs ->
  Schemas.parse_FeatureFlagCreate body' = Ok fd' ->
  Schemas.body_name body' = Schemas.body_name body ->
  Schemas.body_environment body = Some v ->
  Schemas.body_environment body' = Some v' ->
  Py.lower v' = Py.lower v ->
  Main.handle w' header (Main.POST_flags body') db'
  = Main.mkReply
      (Main.Failed (FlagAlreadyExistsError (name flag) (environment flag)))
      db' [Main.call_create_flag].
Proof.
  intros Hkey Hsettings Hpost Hparse' Hname Hv Hv' Hlower.
  assert (Hkey' : Auth.verify_api_key (Main.settings w') (Auth.API_KEY_HEADER header) = Ok k)
    by (rewrite Hsettings; exact Hkey).
  rewrite (create_authorized w header k Hkey) in Hpost.
  destruct (Schemas.parse_FeatureFlagCreate body) as [fd | errs] eqn:Hparse;
    [| discriminate].
  destruct (Crud.create_flag db fd (Main.uuid4 w) (Main.now w))
    as [[flag0 | err] db0] eqn:Hcreate; [| discriminate].
  injection Hpost as -> -> _.
  destruct (create_flag_ok_inv db db' fd _ _ flag Hcreate) as [Hflag [Hdb' [Hfree _]]].
  pose proof Hparse' as Hparse2.
  apply parse_create_Ok in Hparse, Hparse'.
  destruct Hparse as [Hn [He _]]. destruct Hparse' as [Hn' [He' _]].
  assert (Hsame_n : Schemas.c_name fd' = Schemas.c_name fd).
  { rewrite Hname, Hn in Hn'. injection Hn' as <-. reflexivity. }
  assert (Hsame_e : Schemas.c_environment fd' = Schemas.c_environment fd).
  { apply field_environment_Ok in He, He'.
    destruct He as [x [Hx [_ ->]]]. destruct He' as [x' [Hx' [_ ->]]].
    congruence. }
  assert (Hfn : name flag = Schemas.c_name fd) by (rewrite Hflag; reflexivity).
  assert (Hfe : environment flag = Schemas.c_environment fd)
    by (rewrite Hflag; reflexivity).
  assert (Htaken : Crud.get_flag db' (Schemas.c_name fd') (Schemas.c_environment fd')
                   <> None).
  { rewrite Hsame_n, Hsame_e, Hdb', get_flag_snoc, Hfree.
    assert (Hp : has_pair (Schemas.c_name fd) (Schemas.c_environment fd) flag = true)
      by (apply has_pair_true; split; assumption).
    rewrite Hp. discriminate. }
  rewrite (create_authorized w' header k Hkey').
  rewrite Hparse2.
  rewrite (create_flag_taken db' fd' (Main.uuid4 w') (Main.now w') Htaken).
  rewrite Hsame_n, Hsame_e, Hfn, Hfe. reflexivity.
Qed.

Lemma second_create_conflicts_witness :
  let flag := mkFeatureFlag 7%N "beta" "prod" false 100 1000 in
  Main.handle Sample.world Sample.key
    (Main.POST_flags (Schemas.mkCreateBody (Some "beta") (Some "PROD") (Some true) (Some 1)))
    (Sample.three ++ [flag])
  = Main.mkReply (Main.Failed (FlagAlreadyExistsError "beta" "prod"))
      (Sample.three ++ [flag]) [Main.call_create_flag].
Proof.
  cbv zeta.
  apply (second_create_conflicts Sample.world Sample.world Sample.key
           "dev-api-key-12345" Sample.three _
           (Schemas.mkCreateBody (Some "beta") (Some "prod") None None)
           (Schemas.mkCreateBody (Some "beta") (Some "PROD") (Some true) (Some 1))
           (Schemas.mkFeatureFlagCreate "beta" "prod" true 1)
           "prod" "PROD"
           (mkFeatureFlag 7%N "beta" "prod" false 100 1000)
           [Main.call_create_flag]); reflexivity.
Defined.
